(** * Lumina Forge: edit history, session controller and compositor helpers

    A shallow embedding of the application state machine of [App.tsx]
    (history of checkpoints, undo/redo, generate/denoise/enhance, reset),
    of the gateway wrapper of [services/geminiService.ts], of the
    adjustment panel of [components/ResultViewer.tsx] (filters, rotation,
    canvas drawing, export) and of the prompt editor
    with its local history, followed by the properties the specification
    states about them and by further properties read off the code.

    Conventions of the embedding.
    - A React state variable is a field of the record [App]; a handler is
      a function of the rendered snapshot [s] that returns the state after
      all the [setX] calls it queued. A handler reads only the snapshot.
    - Integers of the program (indices, pixel sizes, degrees) are [Z].
      Where the program divides, multiplies or rounds numbers
      ([getClosestAspectRatio], [handleAspectRatioClick]) they are IEEE 754
      binary64 doubles, the numbers of JavaScript, and [JS.number] gives
      the double that holds an integer.
    - An [await] on the remote service is a suspended computation
      [Await req k]: the request that was sent and the continuation that
      receives the reply. *)

From Stdlib Require Import ZArith QArith String Ascii List Bool Lia Lqa Floats.
Import ListNotations.

Local Open Scope string_scope.
Local Open Scope Z_scope.

(** ** JavaScript built-ins used by the program *)

Module JS.

(** [l.length] *)
Definition length {A : Type} (l : list A) : Z := Z.of_nat (List.length l).

(** [l[i]]: [None] stands for [undefined] (index out of range). *)
Definition index {A : Type} (l : list A) (i : Z) : option A :=
  if i <? 0 then None else nth_error l (Z.to_nat i).

(** Relative index of [Array.prototype.slice]: a negative argument counts
    from the end, and the result is clamped to [0, length]. *)
Definition relative (len k : Z) : Z :=
  if k <? 0 then Z.max (len + k) 0 else Z.min k len.

(** [l.slice(start, end)] *)
Definition slice {A : Type} (l : list A) (start end_ : Z) : list A :=
  let k := relative (length l) start in
  let final := relative (length l) end_ in
  firstn (Z.to_nat (final - k)) (skipn (Z.to_nat k) l).

(** [l.push(x)], as the new contents of the array. *)
Definition push {A : Type} (l : list A) (x : A) : list A := l ++ [x].

(** [l.reduce(f)] without an initial value: the first element seeds the
    accumulator; on an empty array JavaScript throws ([None]). *)
Definition reduce {A : Type} (f : A -> A -> A) (l : list A) : option A :=
  match l with
  | [] => None
  | x :: xs => Some (fold_left f xs x)
  end.

(** Truthiness of a possibly undefined string: [undefined], [null] and
    the empty string are falsy. *)
Definition truthy (s : option string) : bool :=
  match s with
  | Some s => negb (s =? "")%string
  | None => false
  end.

(** [a || b] on possibly undefined strings. *)
Definition or (a b : option string) : option string :=
  if truthy a then a else b.

(** [a || "literal"] *)
Definition orDefault (a : option string) (d : string) : string :=
  match or a (Some d) with
  | Some s => s
  | None => d
  end.

(** [s.split(sep)] for a one-character separator. *)
Fixpoint split (sep : ascii) (s : string) : list string :=
  match s with
  | EmptyString => [EmptyString]
  | String c s' =>
      if Ascii.eqb c sep then EmptyString :: split sep s'
      else match split sep s' with
           | [] => [String c EmptyString]
           | x :: xs => String c x :: xs
           end
  end.

(** First occurrence of [sep] in [s]: the text before it and after it. *)
Fixpoint cut (sep s : string) : option (string * string) :=
  if String.prefix sep s
  then Some (EmptyString, substring (String.length sep)
                                    (String.length s - String.length sep)%nat s)
  else match s with
       | EmptyString => None
       | String c s' =>
           match cut sep s' with
           | Some (a, b) => Some (String c a, b)
           | None => None
           end
       end.

(** Line terminators, which [.] of a regular expression does not match.
    Strings are sequences of 8-bit characters here, so only line feed
    and carriage return occur. *)
Definition lineTerminator (c : ascii) : bool :=
  Ascii.eqb c "010"%char || Ascii.eqb c "013"%char.

Fixpoint singleLine (s : string) : bool :=
  match s with
  | EmptyString => true
  | String c s' => negb (lineTerminator c) && singleLine s'
  end.

(** [s.match(re)] for the data-URI pattern of [handleDenoise]: the text
    [data:], a lazy group of any characters, the text [;base64,], a
    greedy group of any characters, anchored at both ends. The result is
    the two captured groups. Neither group can hold a line terminator,
    and the lazy first group stops at the first [;base64,]. *)
Definition matchDataUri (s : string) : option (string * string) :=
  if String.prefix "data:" s then
    let rest := substring 5 (String.length s - 5)%nat s in
    if singleLine rest then cut ";base64," rest else None
  else None.

(** [a % b]: the remainder has the sign of the dividend. *)
Definition rem (a b : Z) : Z := Z.rem a b.

(** The number (a binary64 double) that holds the integer [n]: [n] itself
    up to [2 ^ 53] in absolute value, the nearest double beyond. *)
Definition number (n : Z) : float :=
  SF2Prim (binary_normalize prec emax n 0 false).

(** [Math.round(x)] as an integer: the integer nearest to [x], the greater
    one when [x] lies midway between two. [None] when [x] is NaN or
    infinite, and so is the result. A finite double is [n * 2 ^ e] for
    integers [n] and [e], and [Math.round(x)] is the floor of
    [x + 1 / 2], taken exactly. *)
Definition round (x : float) : option Z :=
  match Prim2SF x with
  | S754_zero _ => Some 0
  | S754_finite s m e =>
      let n := if s then Z.neg m else Z.pos m in
      Some (if e <? 0
            then (2 * n + 2 ^ (- e)) / 2 ^ (- e + 1)
            else n * 2 ^ e)
  | S754_infinity _ | S754_nan => None
  end.

End JS.

(** ** Types ([types.ts]) *)

Record ProcessedImage : Type := mkProcessedImage {
  originalData : string;
  mimeType : string
}.

Module HistoryItem.
Record t : Type := mk {
  image : string;
  prompt : string;
  width : Z;
  height : Z
}.
End HistoryItem.

Inductive AppState : Type :=
| IDLE
| UPLOADING
| READY_TO_EDIT
| PROCESSING
| COMPLETE
| ERROR.

(** ** Aspect-ratio bucketing ([getClosestAspectRatio])

    The arithmetic is that of JavaScript numbers. The literals [1.333] and
    [1.777] are not doubles and are written as the doubles they are read
    as. *)

Module Ratio.
Record t : Type := mk { id : string; value : float }.
End Ratio.

Definition ratios : list Ratio.t :=
  [ Ratio.mk "1:1" 1;
    Ratio.mk "3:4" 0.75;
    Ratio.mk "4:3" 0x1.553f7ced91687p+0;     (* 1.333 *)
    Ratio.mk "9:16" 0.5625;
    Ratio.mk "16:9" 0x1.c6e978d4fdf3bp+0 ].  (* 1.777 *)

(** [Math.abs(value - targetRatio)] *)
Definition distance (targetRatio value : float) : float :=
  abs (value - targetRatio).

(** [Math.abs(curr.value - targetRatio) < Math.abs(prev.value - targetRatio)] *)
Definition closer (targetRatio : float) (curr prev : Ratio.t) : bool :=
  (distance targetRatio (Ratio.value curr)
   <? distance targetRatio (Ratio.value prev))%float.

Definition getClosestAspectRatio (width height : float) : string :=
  let targetRatio := (width / height)%float in
  let closest :=
    JS.reduce (fun prev curr => if closer targetRatio curr prev then curr else prev)
              ratios in
  match closest with
  | Some c => Ratio.id c
  | None => ""   (* unreachable: [ratios] is a non-empty literal *)
  end.

(** ** The remote gateway ([services/geminiService.ts]) *)

(** What [generateContent] is called with: the inline image, the text
    instruction and the aspect-ratio hint. *)
Module Request.
Record t : Type := mk {
  data : option string;      (* [undefined] when the caller had none *)
  mimeType : string;
  text : string;
  aspectRatio : string
}.
End Request.

(** A part of the first candidate of a response: [part.inlineData.data],
    [None] when the part carries no inline data. *)
Module Part.
Record t : Type := mk { inlineData : option string }.
End Part.

(** A candidate of a response, as [candidate.content.parts] reads it.
    [content] and [parts] are optional: when one of them is missing, the
    read or the loop over its result throws a [TypeError], whose message
    is the one of the JavaScript engine. *)
Module Candidate.
Inductive t : Type :=
| Parts (parts : list Part.t)
| NoParts (typeError : string).
End Candidate.

(** Outcome of the remote call: it rejects with an error (and its
    [message], if any), or resolves with a response whose [candidates]
    list may be missing. *)
Inductive Reply : Type :=
| Rejected (message : option string)
| Response (candidates : option (list Candidate.t)).

(** Result of an evaluation that may throw. *)
Inductive Exec (A : Type) : Type :=
| Ok (a : A)
| Throw (message : option string).
Arguments Ok {A} a.
Arguments Throw {A} message.

(** A handler run up to its only suspension point: finished, suspended on
    the gateway with the request it sent, or stopped by an uncaught
    [TypeError] (a field read on [undefined]). *)
Inductive Task (A : Type) : Type :=
| Done (a : A)
| Await (req : Request.t) (k : Reply -> A)
| TypeError.
Arguments Done {A} a.
Arguments Await {A} req k.
Arguments TypeError {A}.

Definition andThen {A B : Type} (t : Task A) (f : A -> B) : Task B :=
  match t with
  | Done a => Done (f a)
  | Await req k => Await req (fun reply => f (k reply))
  | TypeError => TypeError
  end.

(** The request a task is suspended on, if any. *)
Definition sent {A : Type} (t : Task A) : option Request.t :=
  match t with
  | Await req _ => Some req
  | _ => None
  end.

(** The task resumed with the reply of the gateway. *)
Definition settle {A : Type} (t : Task A) (reply : Reply) : option A :=
  match t with
  | Done a => Some a
  | Await _ k => Some (k reply)
  | TypeError => None
  end.

(** The result of a handler that does not call the gateway. *)
Definition finished {A : Type} (t : Task A) : option A :=
  match t with
  | Done a => Some a
  | _ => None
  end.

(** The loop over [parts]: the first part with non-empty inline data. *)
Fixpoint firstInlineData (parts : list Part.t) : option string :=
  match parts with
  | [] => None
  | part :: rest =>
      if JS.truthy (Part.inlineData part) then Part.inlineData part
      else firstInlineData rest
  end.

Definition noImageData : string := "No image data found in the response.".

(** The body of [editImageWithGemini] after the [await]: a rejection is
    logged and rethrown; a response yields the inline data of the first
    candidate or the error [noImageData]; when the parts of the first
    candidate cannot be read, the [TypeError] is caught, logged and
    rethrown like any other error. *)
Definition readResponse (reply : Reply) : Exec string :=
  match reply with
  | Rejected message => Throw message
  | Response (Some (Candidate.Parts parts :: _)) =>
      match firstInlineData parts with
      | Some d => Ok d
      | None => Throw (Some noImageData)
      end
  | Response (Some (Candidate.NoParts typeError :: _)) => Throw (Some typeError)
  | Response _ => Throw (Some noImageData)
  end.

Definition editImageWithGemini (base64Image : option string)
    (mimeType prompt : string) (aspectRatio : option string)
  : Task (Exec string) :=
  let aspectRatio := match aspectRatio with Some a => a | None => "1:1" end in
  Await (Request.mk base64Image mimeType prompt aspectRatio) readResponse.

(** ** Application state ([App.tsx]) *)

Record App : Type := mkApp {
  appState : AppState;
  originalImage : option ProcessedImage;
  history : list HistoryItem.t;
  historyIndex : Z;
  prompt : string;
  width : Z;
  height : Z;
  showCropper : bool;
  showResetConfirmation : bool;
  error : option string
}.

(** The arguments of the [useState] calls. *)
Definition initial : App :=
  mkApp IDLE None [] (-1) "" 1024 1024 false false None.

Definition setAppState (v : AppState) (s : App) : App :=
  mkApp v (originalImage s) (history s) (historyIndex s) (prompt s)
        (width s) (height s) (showCropper s) (showResetConfirmation s) (error s).
Definition setOriginalImage (v : option ProcessedImage) (s : App) : App :=
  mkApp (appState s) v (history s) (historyIndex s) (prompt s)
        (width s) (height s) (showCropper s) (showResetConfirmation s) (error s).
Definition setHistory (v : list HistoryItem.t) (s : App) : App :=
  mkApp (appState s) (originalImage s) v (historyIndex s) (prompt s)
        (width s) (height s) (showCropper s) (showResetConfirmation s) (error s).
Definition setHistoryIndex (v : Z) (s : App) : App :=
  mkApp (appState s) (originalImage s) (history s) v (prompt s)
        (width s) (height s) (showCropper s) (showResetConfirmation s) (error s).
Definition setPrompt (v : string) (s : App) : App :=
  mkApp (appState s) (originalImage s) (history s) (historyIndex s) v
        (width s) (height s) (showCropper s) (showResetConfirmation s) (error s).
Definition setWidth (v : Z) (s : App) : App :=
  mkApp (appState s) (originalImage s) (history s) (historyIndex s) (prompt s)
        v (height s) (showCropper s) (showResetConfirmation s) (error s).
Definition setHeight (v : Z) (s : App) : App :=
  mkApp (appState s) (originalImage s) (history s) (historyIndex s) (prompt s)
        (width s) v (showCropper s) (showResetConfirmation s) (error s).
Definition setShowCropper (v : bool) (s : App) : App :=
  mkApp (appState s) (originalImage s) (history s) (historyIndex s) (prompt s)
        (width s) (height s) v (showResetConfirmation s) (error s).
Definition setShowResetConfirmation (v : bool) (s : App) : App :=
  mkApp (appState s) (originalImage s) (history s) (historyIndex s) (prompt s)
        (width s) (height s) (showCropper s) v (error s).
Definition setError (v : option string) (s : App) : App :=
  mkApp (appState s) (originalImage s) (history s) (historyIndex s) (prompt s)
        (width s) (height s) (showCropper s) (showResetConfirmation s) v.

(** [s |> setA a |> setB b]: the state after the queued updates. *)
Notation "s |> f" := (f s) (at level 45, left associativity, only parsing).

(** *** Derived state *)

(** [historyIndex >= 0 ? history[historyIndex].image : null]. The outer
    [None] is the [TypeError] of reading [image] on [undefined]. *)
Definition generatedImage (s : App) : option (option string) :=
  if historyIndex s >=? 0 then
    match JS.index (history s) (historyIndex s) with
    | Some item => Some (Some (HistoryItem.image item))
    | None => None
    end
  else Some None.

Definition canUndo (s : App) : bool := historyIndex s >=? 0.
Definition canRedo (s : App) : bool := historyIndex s <? JS.length (history s) - 1.

(** *** Handlers *)

Definition handleImageSelected (s : App) (image : ProcessedImage) : App :=
  s |> setOriginalImage (Some image)
    |> setHistory []
    |> setHistoryIndex (-1)
    |> setPrompt ""
    |> setError None
    |> setAppState READY_TO_EDIT.

(** The [onload] callback of the probe image created by
    [handleImageSelected] and [handleCroppedImageSelected]; it runs later,
    once the image is decoded. *)
Definition naturalSizeLoaded (s : App) (img_width img_height : Z) : App :=
  s |> setWidth img_width |> setHeight img_height.

Definition handleCroppedImageSelected (s : App) (croppedBase64 : string) : App :=
  s |> setOriginalImage (Some (mkProcessedImage croppedBase64 "image/png"))
    |> setHistory []
    |> setHistoryIndex (-1)
    (* Keep the current prompt *)
    |> setError None
    |> setAppState READY_TO_EDIT
    |> setShowCropper false.

Definition handleResetRequest (s : App) : App :=
  s |> setShowResetConfirmation true.

Definition handleConfirmReset (s : App) : App :=
  s |> setOriginalImage None
    |> setHistory []
    |> setHistoryIndex (-1)
    |> setPrompt ""
    |> setWidth 1024
    |> setHeight 1024
    |> setError None
    |> setAppState IDLE
    |> setShowResetConfirmation false.

Definition denoisePrompt : string :=
  "Remove all noise and grain from this image. Make it look clean, sharp and professional. Preserve all details and textures.".

Definition enhancePrompt : string :=
  "Automatically enhance this image. Improve color balance, contrast, sharpness, and lighting to make it look professional, vibrant, and high-quality. Preserve the main subject details.".

Definition handleApplyFilters (s : App) (newImage : string) : Task App :=
  if historyIndex s <? 0 then Done s else
  match JS.index (history s) (historyIndex s) with
  | None => TypeError
  | Some currentItem =>
      let newHistoryItem :=
        HistoryItem.mk newImage
                       (HistoryItem.prompt currentItem)
                       (HistoryItem.width currentItem)
                       (HistoryItem.height currentItem) in
      let newHistory := JS.slice (history s) 0 (historyIndex s + 1) in
      let newHistory := JS.push newHistory newHistoryItem in
      Done (s |> setHistory newHistory
              |> setHistoryIndex (JS.length newHistory - 1))
  end.

Definition handleUndo (s : App) : Task App :=
  if negb (canUndo s) then Done s else
  let newIndex := historyIndex s - 1 in
  let pending := s |> setHistoryIndex newIndex in
  if newIndex >=? 0 then
    match JS.index (history s) newIndex with
    | None => TypeError
    | Some item =>
        Done (pending |> setPrompt (HistoryItem.prompt item)
                      |> setWidth (HistoryItem.width item)
                      |> setHeight (HistoryItem.height item)
                      |> setAppState COMPLETE)
    end
  else
    (* Reached the beginning *)
    Done (pending |> setAppState READY_TO_EDIT).

Definition handleRedo (s : App) : Task App :=
  if negb (canRedo s) then Done s else
  let newIndex := historyIndex s + 1 in
  match JS.index (history s) newIndex with
  | None => TypeError
  | Some item =>
      Done (s |> setHistoryIndex newIndex
              |> setPrompt (HistoryItem.prompt item)
              |> setWidth (HistoryItem.width item)
              |> setHeight (HistoryItem.height item)
              |> setAppState COMPLETE)
  end.

Section Session.

(** [resizeImage] draws the decoded image on a canvas of the target size
    and resolves with the canvas contents (or with its argument when no
    2D context is available). It is a capability of the browser, taken as
    a parameter; [None] is a promise that never settles (the image does
    not load). *)
Variable resizeImage : string -> Z -> Z -> option string.

Definition handleGenerate (s : App) (currentPrompt : string) : Task App :=
  match originalImage s with
  | None => Done s
  | Some originalImage =>
      let pending := s |> setAppState PROCESSING |> setError None in
      let base64Data := nth_error (JS.split "," (originalData originalImage)) 1 in
      let aspectRatio :=
        getClosestAspectRatio (JS.number (width s)) (JS.number (height s)) in
      andThen
        (editImageWithGemini base64Data (mimeType originalImage)
                             currentPrompt (Some aspectRatio))
        (fun result =>
           match result with
           | Ok resultBase64 =>
               let rawImage := "data:image/png;base64," ++ resultBase64 in
               match resizeImage rawImage (width s) (height s) with
               | Some resizedImage =>
                   let newHistoryItem :=
                     HistoryItem.mk resizedImage currentPrompt (width s) (height s) in
                   (* discard forward history *)
                   let newHistory := JS.slice (history s) 0 (historyIndex s + 1) in
                   let newHistory := JS.push newHistory newHistoryItem in
                   pending |> setHistory newHistory
                           |> setHistoryIndex (JS.length newHistory - 1)
                           |> setAppState COMPLETE
               | None => pending
               end
           | Throw message =>
               pending
                 |> setError (Some (JS.orDefault message
                                      "Something went wrong during generation."))
                 |> setAppState ERROR
           end)
  end.

Definition handleDenoise (s : App) : Task App :=
  match generatedImage s with
  | None => TypeError
  | Some generatedImage =>
      (* Use generated image if available, otherwise original *)
      let sourceImage :=
        JS.or generatedImage (option_map originalData (originalImage s)) in
      match sourceImage with
      | None => Done s
      | Some sourceImage =>
          if negb (JS.truthy (Some sourceImage)) then Done s else
          let pending := s |> setAppState PROCESSING |> setError None in
          let failed (message : option string) :=
            pending |> setError (Some (JS.orDefault message "Denoising failed."))
                    |> setAppState ERROR in
          match JS.matchDataUri sourceImage with
          | None => Done (failed (Some "Invalid image source data."))
          | Some (mimeType, base64Data) =>
              let aspectRatio :=
                getClosestAspectRatio (JS.number (width s)) (JS.number (height s)) in
              andThen
                (editImageWithGemini (Some base64Data) mimeType
                                     denoisePrompt (Some aspectRatio))
                (fun result =>
                   match result with
                   | Ok resultBase64 =>
                       let rawImage := "data:image/png;base64," ++ resultBase64 in
                       match resizeImage rawImage (width s) (height s) with
                       | Some resizedImage =>
                           let newHistoryItem :=
                             HistoryItem.mk resizedImage "Remove Noise (AI)"
                                            (width s) (height s) in
                           let newHistory :=
                             JS.slice (history s) 0 (historyIndex s + 1) in
                           let newHistory := JS.push newHistory newHistoryItem in
                           pending |> setHistory newHistory
                                   |> setHistoryIndex (JS.length newHistory - 1)
                                   |> setPrompt "Remove Noise (AI)"
                                   |> setAppState COMPLETE
                       | None => pending
                       end
                   | Throw message => failed message
                   end)
          end
      end
  end.

Definition handleAutoEnhance (s : App) : Task App :=
  match generatedImage s with
  | None => TypeError
  | Some generatedImage =>
      (* Use generated image if available, otherwise original *)
      let sourceImage :=
        JS.or generatedImage (option_map originalData (originalImage s)) in
      match sourceImage with
      | None => Done s
      | Some sourceImage =>
          if negb (JS.truthy (Some sourceImage)) then Done s else
          let pending := s |> setAppState PROCESSING |> setError None in
          let failed (message : option string) :=
            pending |> setError (Some (JS.orDefault message "Auto enhancement failed."))
                    |> setAppState ERROR in
          match JS.matchDataUri sourceImage with
          | None => Done (failed (Some "Invalid image source data."))
          | Some (mimeType, base64Data) =>
              let aspectRatio :=
                getClosestAspectRatio (JS.number (width s)) (JS.number (height s)) in
              andThen
                (editImageWithGemini (Some base64Data) mimeType
                                     enhancePrompt (Some aspectRatio))
                (fun result =>
                   match result with
                   | Ok resultBase64 =>
                       let rawImage := "data:image/png;base64," ++ resultBase64 in
                       match resizeImage rawImage (width s) (height s) with
                       | Some resizedImage =>
                           let newHistoryItem :=
                             HistoryItem.mk resizedImage "Auto Enhance (AI)"
                                            (width s) (height s) in
                           let newHistory :=
                             JS.slice (history s) 0 (historyIndex s + 1) in
                           let newHistory := JS.push newHistory newHistoryItem in
                           pending |> setHistory newHistory
                                   |> setHistoryIndex (JS.length newHistory - 1)
                                   |> setPrompt "Auto Enhance (AI)"
                                   |> setAppState COMPLETE
                       | None => pending
                       end
                   | Throw message => failed message
                   end)
          end
      end
  end.

(** *** Events of a session

    What reaches the component: the callbacks passed to its children and
    the completion of the size probe. A call of the gateway comes with
    the reply it will receive. *)
Inductive Event : Type :=
| ImageSelected (image : ProcessedImage)     (* uploader: [onImageSelected] *)
| NaturalSizeLoaded (img_width img_height : Z)
| CropOriginal                               (* [setShowCropper(true)] *)
| CropCancel                                 (* [setShowCropper(false)] *)
| CroppedImageSelected (croppedBase64 : string)
| ResetRequest
| ResetCancel                                (* [setShowResetConfirmation(false)] *)
| ConfirmReset
| PromptInput (text : string)                (* editor: [setPrompt] *)
| WidthInput (w : Z)                         (* editor: [setWidth] *)
| HeightInput (h : Z)                        (* editor: [setHeight] *)
| Generate (currentPrompt : string) (reply : Reply)
| Denoise (reply : Reply)
| AutoEnhance (reply : Reply)
| ApplyFilters (newImage : string)
| Undo
| Redo.

(** One event; [None] when the handler stops on an uncaught [TypeError]. *)
Definition step (s : App) (e : Event) : option App :=
  match e with
  | ImageSelected image => Some (handleImageSelected s image)
  | NaturalSizeLoaded w h => Some (naturalSizeLoaded s w h)
  | CropOriginal => Some (s |> setShowCropper true)
  | CropCancel => Some (s |> setShowCropper false)
  | CroppedImageSelected c => Some (handleCroppedImageSelected s c)
  | ResetRequest => Some (handleResetRequest s)
  | ResetCancel => Some (s |> setShowResetConfirmation false)
  | ConfirmReset => Some (handleConfirmReset s)
  | PromptInput text => Some (s |> setPrompt text)
  | WidthInput w => Some (s |> setWidth w)
  | HeightInput h => Some (s |> setHeight h)
  | Generate currentPrompt reply => settle (handleGenerate s currentPrompt) reply
  | Denoise reply => settle (handleDenoise s) reply
  | AutoEnhance reply => settle (handleAutoEnhance s) reply
  | ApplyFilters newImage => finished (handleApplyFilters s newImage)
  | Undo => finished (handleUndo s)
  | Redo => finished (handleRedo s)
  end.

Fixpoint run (s : App) (events : list Event) : option App :=
  match events with
  | [] => Some s
  | e :: rest =>
      match step s e with
      | Some s' => run s' rest
      | None => None
      end
  end.

(** *** Appends

    Vocabulary for the statements about appending a checkpoint. *)

(** The gateway answers [reply] with an image and its resampling to the
    target size of [s] yields [img]. *)
Definition succeeds (s : App) (reply : Reply) (img : string) : Prop :=
  exists resultBase64,
    readResponse reply = Ok resultBase64 /\
    resizeImage ("data:image/png;base64," ++ resultBase64) (width s) (height s)
    = Some img.

(** The image a denoising or an enhancement starts from in state [s] is
    the base64 data URI of [payload] with the type [mimeType]: the image of
    the selected checkpoint or, when there is none, the source image. *)
Definition viewsDataUri (s : App) (mimeType payload : string) : Prop :=
  exists viewed sourceImage,
    generatedImage s = Some viewed /\
    JS.or viewed (option_map originalData (originalImage s)) = Some sourceImage /\
    JS.matchDataUri sourceImage = Some (mimeType, payload).

(** The events that append a checkpoint in state [s], with the checkpoint:
    a generation with a source image in place, a denoising or an
    enhancement of an image that is a base64 data URI, each with a reply
    of the gateway that succeeds, and the baking of an adjustment of the
    selected checkpoint. *)
Inductive Appends (s : App) : Event -> HistoryItem.t -> Prop :=
| AppendsGenerate (currentPrompt : string) (reply : Reply) (img : string) :
    originalImage s <> None ->
    succeeds s reply img ->
    Appends s (Generate currentPrompt reply)
            (HistoryItem.mk img currentPrompt (width s) (height s))
| AppendsDenoise (reply : Reply) (img mimeType payload : string) :
    viewsDataUri s mimeType payload ->
    succeeds s reply img ->
    Appends s (Denoise reply)
            (HistoryItem.mk img "Remove Noise (AI)" (width s) (height s))
| AppendsAutoEnhance (reply : Reply) (img mimeType payload : string) :
    viewsDataUri s mimeType payload ->
    succeeds s reply img ->
    Appends s (AutoEnhance reply)
            (HistoryItem.mk img "Auto Enhance (AI)" (width s) (height s))
| AppendsApplyFilters (newImage : string) (currentItem : HistoryItem.t) :
    JS.index (history s) (historyIndex s) = Some currentItem ->
    Appends s (ApplyFilters newImage)
            (HistoryItem.mk newImage
                            (HistoryItem.prompt currentItem)
                            (HistoryItem.width currentItem)
                            (HistoryItem.height currentItem)).

End Session.

(** ** The result viewer ([components/ResultViewer.tsx]) *)

Module ResultViewer.

Inductive Direction : Type := cw | ccw.

(** The updater passed to [setRotation]. *)
Definition handleRotate (direction : Direction) (prev : Z) : Z :=
  match direction with
  | cw => JS.rem (prev + 90) 360
  | ccw => JS.rem (prev - 90 + 360) 360
  end.

(** The rotation after a sequence of clicks; it starts at [0] and is set
    back to [0] whenever the viewed image changes. *)
Definition rotate (clicks : list Direction) (rotation : Z) : Z :=
  fold_left (fun prev direction => handleRotate direction prev) clicks rotation.

(** Size given to the canvas by [handleApplyFilters] and
    [handleDownload], as [(canvas.width, canvas.height)]: swapped when
    rotated by 90 or 270 degrees. *)
Definition canvasSize (rotation img_width img_height : Z) : Z * Z :=
  if negb (JS.rem rotation 180 =? 0)
  then (img_height, img_width)
  else (img_width, img_height).

(** *** The adjustment panel *)

(** The [filters] state. *)
Record Filters : Type := mkFilters {
  brightness : Z;
  contrast : Z;
  grayscale : Z;
  sepia : Z;
  saturation : Z;
  temperature : Z
}.

(** The literal that initialises and resets [filters]. *)
Definition neutralFilters : Filters := mkFilters 100 100 0 0 100 0.

(** [keyof typeof filters] *)
Inductive FilterKey : Type :=
| Brightness | Contrast | Grayscale | Sepia | Saturation | Temperature.

(** The updater of [handleFilterChange]: the previous filters with the
    field [key] replaced by [value]. *)
Definition handleFilterChange (key : FilterKey) (value : Z) (prev : Filters)
  : Filters :=
  match key with
  | Brightness =>
      mkFilters value (contrast prev) (grayscale prev) (sepia prev)
                (saturation prev) (temperature prev)
  | Contrast =>
      mkFilters (brightness prev) value (grayscale prev) (sepia prev)
                (saturation prev) (temperature prev)
  | Grayscale =>
      mkFilters (brightness prev) (contrast prev) value (sepia prev)
                (saturation prev) (temperature prev)
  | Sepia =>
      mkFilters (brightness prev) (contrast prev) (grayscale prev) value
                (saturation prev) (temperature prev)
  | Saturation =>
      mkFilters (brightness prev) (contrast prev) (grayscale prev) (sepia prev)
                value (temperature prev)
  | Temperature =>
      mkFilters (brightness prev) (contrast prev) (grayscale prev) (sepia prev)
                (saturation prev) value
  end.

(** The state of the component that the adjustments use. The position of
    the comparison slider is a percentage; the handlers below keep it or
    set it back to 50. *)
Record Viewer : Type := mkViewer {
  showFilters : bool;
  isSliderMode : bool;
  sliderPosition : option Q;
  filters : Filters;
  rotation : Z
}.

(** The arguments of the [useState] calls. *)
Definition initialViewer : Viewer :=
  mkViewer false false (Some 50%Q) neutralFilters 0.

(** The effect that runs when [generatedImage] changes. *)
Definition imageChanged (v : Viewer) : Viewer :=
  mkViewer false false (Some 50%Q) neutralFilters 0.

Definition handleResetFilters (v : Viewer) : Viewer :=
  mkViewer (showFilters v) (isSliderMode v) (sliderPosition v) neutralFilters 0.

Definition hasActiveFilters (v : Viewer) : bool :=
  negb (brightness (filters v) =? 100)
  || negb (contrast (filters v) =? 100)
  || negb (grayscale (filters v) =? 0)
  || negb (sepia (filters v) =? 0)
  || negb (saturation (filters v) =? 100)
  || negb (temperature (filters v) =? 0)
  || negb (rotation v =? 0).

(** *** Drawing on the canvas

    The calls made on the 2D context, in order. *)

Inductive Fill : Type :=
| Hex (colour : string)
| Rgba (red green blue : Z) (alpha : Q).

Inductive Call : Type :=
| SetFilter (brightness contrast grayscale sepia saturate : Z)
| SetFilterNone
| Translate (x y : Q)
| Rotate (degrees : Z)              (* [ctx.rotate(degrees * Math.PI / 180)] *)
| DrawImage (dx dy : Q)
| SetTransformIdentity              (* [ctx.setTransform(1, 0, 0, 1, 0, 0)] *)
| SetGlobalCompositeOperation (operation : string)
| SetFillStyle (fill : Fill)
| FillRect (x y w h : Z).

Definition half (n : Z) : Q := (inject_Z n / 2)%Q.

Definition applyCanvasTransformations (v : Viewer)
    (img_width img_height canvasWidth canvasHeight : Z) : list Call :=
  let f := filters v in
  (* 1. Filters, 2. Rotation, then the transform is reset for the overlay *)
  [ SetFilter (brightness f) (contrast f) (grayscale f) (sepia f) (saturation f);
    Translate (half canvasWidth) (half canvasHeight);
    Rotate (rotation v);
    DrawImage (- half img_width)%Q (- half img_height)%Q;
    SetTransformIdentity;
    SetFilterNone ]
  ++
  (* 3. Temperature overlay *)
  (if negb (temperature f =? 0) then
     [ SetGlobalCompositeOperation "soft-light";
       SetFillStyle
         (if temperature f >? 0
          then Rgba 255 147 41 (inject_Z (temperature f) / 100 * 0.5)%Q
          else Rgba 0 160 255 (inject_Z (Z.abs (temperature f)) / 100 * 0.5)%Q);
       FillRect 0 0 canvasWidth canvasHeight;
       SetGlobalCompositeOperation "source-over" ]
   else [])%list.

(** What [handleApplyFilters] does once the image is loaded: the size of
    the canvas and the calls on its context, whose contents are then passed
    to [onApplyFilters]. [None] when there is no generated image. *)
Definition handleApplyFilters (v : Viewer) (generatedImage : option string)
    (img_width img_height : Z) : option (Z * Z * list Call) :=
  if negb (JS.truthy generatedImage) then None else
  let size := canvasSize (rotation v) img_width img_height in
  Some (size,
        applyCanvasTransformations v img_width img_height (fst size) (snd size)).

Inductive ExportFormat : Type := png | jpeg.

(** A download: the size of the canvas, the calls on its context, the
    arguments of [toDataURL] and the file name. *)
Record Download : Type := mkDownload {
  canvas : Z * Z;
  calls : list Call;
  encoding : string;
  quality : Q;
  download : string
}.

(** [handleDownload] once the image is loaded. [now] is [Date.now()] in
    decimal. *)
Definition handleDownload (v : Viewer) (exportFormat : ExportFormat)
    (exportQuality : Z) (generatedImage : option string)
    (img_width img_height : Z) (now : string) : option Download :=
  if negb (JS.truthy generatedImage) then None else
  let size := canvasSize (rotation v) img_width img_height in
  let background :=
    match exportFormat with
    | jpeg => [SetFillStyle (Hex "#FFFFFF"); FillRect 0 0 (fst size) (snd size)]
    | png => []
    end in
  let mimeType :=
    match exportFormat with png => "image/png" | jpeg => "image/jpeg" end in
  let quality :=
    match exportFormat with
    | png => 1%Q
    | jpeg => (inject_Z exportQuality / 100)%Q
    end in
  let extension := match exportFormat with png => "png" | jpeg => "jpeg" end in
  Some (mkDownload size
          (background ++
           applyCanvasTransformations v img_width img_height (fst size) (snd size))%list
          mimeType quality
          ("lumina-forge-edit-" ++ now ++ "." ++ extension)).

End ResultViewer.

(** ** The prompt editor and its local history (the [PromptEditor]
    component that keeps [past] and [future]) *)

Module PromptEditor.

Module Entry.
Record t : Type := mk {
  prompt : string;
  width : Z;
  height : Z
}.
End Entry.

(** The state of the component: the [past] and [future] of its [history],
    and whether [typingTimeoutRef] holds a pending timer. *)
Record Editor : Type := mkEditor {
  past : list Entry.t;
  future : list Entry.t;
  typingTimeoutRef : bool
}.

Definition initialEditor : Editor := mkEditor [] [] false.

(** The values of the props [prompt], [width] and [height]. *)
Definition current (s : App) : Entry.t :=
  Entry.mk (prompt s) (width s) (height s).

Definition saveToHistory (s : App) (ed : Editor) : Editor :=
  mkEditor (past ed ++ [current s])%list [] (typingTimeoutRef ed).

Definition restore (e : Entry.t) (s : App) : App :=
  s |> setPrompt (Entry.prompt e)
    |> setWidth (Entry.width e)
    |> setHeight (Entry.height e).

Definition handleLocalUndo (s : App) (ed : Editor) : App * Editor :=
  if JS.length (past ed) =? 0 then (s, ed) else
  match JS.index (past ed) (JS.length (past ed) - 1) with
  | None => (s, ed)   (* unreachable: [past] is not empty *)
  | Some previous =>
      let newPast := JS.slice (past ed) 0 (-1) in
      (restore previous s,
       mkEditor newPast (current s :: future ed) (typingTimeoutRef ed))
  end.

Definition handleLocalRedo (s : App) (ed : Editor) : App * Editor :=
  if JS.length (future ed) =? 0 then (s, ed) else
  match JS.index (future ed) 0 with
  | None => (s, ed)   (* unreachable: [future] is not empty *)
  | Some next =>
      let newFuture := JS.slice (future ed) 1 (JS.length (future ed)) in
      (restore next s,
       mkEditor (past ed ++ [current s])%list newFuture (typingTimeoutRef ed))
  end.

(** The debounce shared by [handlePromptChange] and
    [handleDimensionInput]: the history is saved only when no timer is
    pending, and the timer is started again. *)
Definition debounce (s : App) (ed : Editor) : Editor :=
  let ed' := if negb (typingTimeoutRef ed) then saveToHistory s ed else ed in
  mkEditor (past ed') (future ed') true.

(** The callback of the timer, one second after the last input. *)
Definition typingTimeout (ed : Editor) : Editor :=
  mkEditor (past ed) (future ed) false.

Definition handlePromptChange (newValue : string) (s : App) (ed : Editor)
  : App * Editor :=
  (s |> setPrompt newValue, debounce s ed).

Definition handleDimensionInput (newWidth newHeight : Z) (s : App) (ed : Editor)
  : App * Editor :=
  (s |> setWidth newWidth |> setHeight newHeight, debounce s ed).

(** [Math.max(1, parseInt(e.target.value) || 0)]; [None] is the NaN of a
    text that does not start with a number. *)
Definition parseDimension (parsed : option Z) : Z :=
  let n := match parsed with
           | Some n => if n =? 0 then 0 else n
           | None => 0
           end in
  Z.max 1 n.

Definition widthInput (parsed : option Z) (s : App) (ed : Editor) : App * Editor :=
  handleDimensionInput (parseDimension parsed) (height s) s ed.

Definition heightInput (parsed : option Z) (s : App) (ed : Editor) : App * Editor :=
  handleDimensionInput (width s) (parseDimension parsed) s ed.

Definition handleQuickAction (actionPrompt : string) (s : App) (ed : Editor)
  : App * Editor :=
  (s |> setPrompt actionPrompt, saveToHistory s ed).

(** The presets of the size panel, with their [ratio]. *)
Definition ASPECT_RATIOS : list (string * float) :=
  [ ("1:1", 1); ("16:9", 16 / 9); ("9:16", 9 / 16); ("4:3", 4 / 3);
    ("3:4", 3 / 4) ]%float.

(** [handleAspectRatioClick]: the history is saved at once, the long side
    is kept and the other side is the rounded quotient or product.
    [None]: the rounded number is NaN or infinite, which the sizes of
    [App] cannot hold; it does not happen for a size that a double holds
    and a ratio of [ASPECT_RATIOS]. *)
Definition handleAspectRatioClick (ratio : float) (s : App) (ed : Editor)
  : option (App * Editor) :=
  let ed' := saveToHistory s ed in
  let longSide := Z.max (width s) (height s) in
  if (ratio =? 1)%float then
    Some (s |> setWidth longSide |> setHeight longSide, ed')
  else if (1 <? ratio)%float then
    match JS.round (JS.number longSide / ratio) with
    | Some rounded => Some (s |> setWidth longSide |> setHeight rounded, ed')
    | None => None
    end
  else
    match JS.round (JS.number longSide * ratio) with
    | Some rounded => Some (s |> setHeight longSide |> setWidth rounded, ed')
    | None => None
    end.

Definition canLocalUndo (ed : Editor) : bool := JS.length (past ed) >? 0.
Definition canLocalRedo (ed : Editor) : bool := JS.length (future ed) >? 0.

(** White space and line terminators of [String.prototype.trim], among
    8-bit characters. *)
Definition whiteSpace (c : ascii) : bool :=
  match nat_of_ascii c with
  | 9%nat | 10%nat | 11%nat | 12%nat | 13%nat | 32%nat | 160%nat => true
  | _ => false
  end.

Fixpoint trimStart (s : string) : string :=
  match s with
  | EmptyString => EmptyString
  | String c s' => if whiteSpace c then trimStart s' else s
  end.

Fixpoint trimEnd (s : string) : string :=
  match s with
  | EmptyString => EmptyString
  | String c s' =>
      match trimEnd s' with
      | EmptyString => if whiteSpace c then EmptyString else String c EmptyString
      | rest => String c rest
      end
  end.

Definition trim (s : string) : string := trimEnd (trimStart s).

(** [handleSubmit]: the generation is asked for only when the prompt has
    more than white space. *)
Definition handleSubmit (resizeImage : string -> Z -> Z -> option string)
    (s : App) : Task App :=
  if JS.truthy (Some (trim (prompt s)))
  then handleGenerate resizeImage s (prompt s)
  else Done s.

(** Inputs of the editor that do not call the gateway. *)
Inductive Input : Type :=
| PromptChange (newValue : string)
| WidthChange (parsed : option Z)
| HeightChange (parsed : option Z)
| QuickAction (actionPrompt : string)
| AspectRatioClick (ratio : float)
| LocalUndo
| LocalRedo
| TypingTimeout.

(** One input. A click on a preset whose size would not be a finite
    number (see [handleAspectRatioClick]) is left without effect. *)
Definition input (i : Input) (w : App * Editor) : App * Editor :=
  let (s, ed) := w in
  match i with
  | PromptChange newValue => handlePromptChange newValue s ed
  | WidthChange parsed => widthInput parsed s ed
  | HeightChange parsed => heightInput parsed s ed
  | QuickAction actionPrompt => handleQuickAction actionPrompt s ed
  | AspectRatioClick ratio =>
      match handleAspectRatioClick ratio s ed with
      | Some w' => w'
      | None => w
      end
  | LocalUndo => handleLocalUndo s ed
  | LocalRedo => handleLocalRedo s ed
  | TypingTimeout => (s, typingTimeout ed)
  end.

Definition inputs (l : list Input) (w : App * Editor) : App * Editor :=
  fold_left (fun w i => input i w) l w.

End PromptEditor.

(** ** Vocabulary of the statements *)

(** The cursor selects a checkpoint of the history or, at [-1], none. *)
Definition consistent (s : App) : Prop :=
  -1 <= historyIndex s <= JS.length (history s) - 1.

(** The sequence after an append: the entries up to the cursor, then the
    new checkpoint, selected by the cursor. *)
Definition appended (s s' : App) (item : HistoryItem.t) : Prop :=
  history s' = (firstn (Z.to_nat (historyIndex s + 1)) (history s) ++ [item])%list /\
  JS.length (history s') = historyIndex s + 2 /\
  historyIndex s' = JS.length (history s') - 1 /\
  (forall i, 0 <= i <= historyIndex s ->
             JS.index (history s') i = JS.index (history s) i) /\
  JS.index (history s') (historyIndex s') = Some item.

(** [s'] is [s] after a failed call: the [ERROR] state with the message of
    the failure, or [fallback] when it has none, and the history, its
    cursor and what they select as in [s]. *)
Definition failedWith (s s' : App) (message : option string) (fallback : string)
  : Prop :=
  appState s' = ERROR /\
  error s' = Some (JS.orDefault message fallback) /\
  history s' = history s /\
  historyIndex s' = historyIndex s /\
  canUndo s' = canUndo s /\
  generatedImage s' = generatedImage s.

(** The text the user last entered in the prompt editor: the argument of
    the latest [PromptInput], the empty text before any. *)
Definition lastUserPrompt (events : list Event) : string :=
  fold_left (fun entered e =>
               match e with
               | PromptInput text => text
               | _ => entered
               end)
            events "".





(** [s] does not contain the character [c]. *)
Fixpoint without (c : ascii) (s : string) : bool :=
  match s with
  | EmptyString => true
  | String c' s' => negb (Ascii.eqb c' c) && without c s'
  end.

(** The events that replace or clear the source image. *)
Definition replacesSource (e : Event) : bool :=
  match e with
  | ImageSelected _ | CroppedImageSelected _ | ConfirmReset => true
  | _ => false
  end.

(** The data URI of a PNG image with the base64 text [payload]. *)
Definition pngDataUri (payload : string) : string :=
  "data:image/png;base64," ++ payload.

(** Every part of [parts] is without inline data, or has empty data. *)
Definition noInlineData (parts : list Part.t) : Prop :=
  Forall (fun part => JS.truthy (Part.inlineData part) = false) parts.



(** The inputs of the editor that go through the debounce. *)
Definition debounced (i : PromptEditor.Input) : bool :=
  match i with
  | PromptEditor.PromptChange _
  | PromptEditor.WidthChange _
  | PromptEditor.HeightChange _ => true
  | _ => false
  end.

(** The inputs of the editor that set a size to a rounded quotient or
    product: the clicks on a preset whose ratio is not 1. *)
Definition roundsSize (i : PromptEditor.Input) : bool :=
  match i with
  | PromptEditor.AspectRatioClick ratio => negb (ratio =? 1)%float
  | _ => false
  end.

(** The sizes of the session and of every entry of the editor's history
    are at least 1. *)
Definition editorSizesPositive (w : App * PromptEditor.Editor) : Prop :=
  1 <= width (fst w) /\ 1 <= height (fst w) /\
  Forall (fun e => 1 <= PromptEditor.Entry.width e /\
                   1 <= PromptEditor.Entry.height e)
         (PromptEditor.past (snd w) ++ PromptEditor.future (snd w)).

(** The text [s] has only white space. *)
Fixpoint blank (s : string) : bool :=
  match s with
  | EmptyString => true
  | String c s' => PromptEditor.whiteSpace c && blank s'
  end.

(** Clockwise clicks minus counter-clockwise clicks. *)
Definition netClicks (clicks : list ResultViewer.Direction) : Z :=
  fold_right (fun direction n =>
                match direction with
                | ResultViewer.cw => n + 1
                | ResultViewer.ccw => n - 1
                end)
             0 clicks.

(** The calls that draw the filtered and rotated image, before any
    overlay. *)
Definition drawsImage (v : ResultViewer.Viewer)
    (img_width img_height canvasWidth canvasHeight : Z)
  : list ResultViewer.Call :=
  let f := ResultViewer.filters v in
  [ ResultViewer.SetFilter (ResultViewer.brightness f) (ResultViewer.contrast f)
      (ResultViewer.grayscale f) (ResultViewer.sepia f) (ResultViewer.saturation f);
    ResultViewer.Translate (ResultViewer.half canvasWidth)
                           (ResultViewer.half canvasHeight);
    ResultViewer.Rotate (ResultViewer.rotation v);
    ResultViewer.DrawImage (- ResultViewer.half img_width)%Q
                           (- ResultViewer.half img_height)%Q;
    ResultViewer.SetTransformIdentity;
    ResultViewer.SetFilterNone ].

(** The calls that paint the overlay of colour [(red, green, blue)] and
    opacity [alpha] over a canvas of the given size. *)
Definition paintsOverlay (red green blue : Z) (alpha : Q)
    (canvasWidth canvasHeight : Z) : list ResultViewer.Call :=
  [ ResultViewer.SetGlobalCompositeOperation "soft-light";
    ResultViewer.SetFillStyle (ResultViewer.Rgba red green blue alpha);
    ResultViewer.FillRect 0 0 canvasWidth canvasHeight;
    ResultViewer.SetGlobalCompositeOperation "source-over" ].

(** ** Sample data *)

(** The fallback of [resizeImage]: without a 2D context the promise
    resolves with the image it was given. *)
Definition keepImage (base64Str : string) (targetWidth targetHeight : Z)
  : option string := Some base64Str.

(** A reply whose first candidate has one part with inline data [d]. *)
Definition inlineReply (d : string) : Reply :=
  Response (Some [Candidate.Parts [Part.mk (Some d)]]).

Definition photo : ProcessedImage :=
  mkProcessedImage "data:image/jpeg;base64,QUJD" "image/jpeg".

(** The initial session with the target size [w] x [h]. *)
Definition sized (w h : Z) : App :=
  initial |> setWidth w |> setHeight h.

(** The state after event [e], with the fallback of [resizeImage]. *)
Definition after (s : App) (e : Event) : App :=
  match step keepImage s e with
  | Some s' => s'
  | None => s
  end.

(** An upload followed by two generations: two checkpoints, the second
    selected. *)
Definition twoCheckpoints : App :=
  after (after (handleImageSelected initial photo)
               (Generate "A" (inlineReply "QQ")))
        (Generate "B" (inlineReply "Qg")).

(** * Properties *)

(** ** Aspect-ratio bucketing *)

(** *** The order of doubles

    The comparisons of binary64, read through their specification
    [SFcompare]: they are transitive, and total on numbers other than
    NaN. *)










(** *** Rounding never yields NaN

    A quotient of finite numbers and a difference with a finite number
    are rounded mantissas, never NaN. *)












(** *** Sizes as doubles *)










(** ** The history and its cursor *)

Lemma length_nonneg {A : Type} (l : list A) : 0 <= JS.length l.
Proof. unfold JS.length. lia. Qed.

Lemma length_push {A : Type} (l : list A) (x : A) :
  JS.length (JS.push l x) = JS.length l + 1.
Proof. unfold JS.length, JS.push. rewrite length_app. simpl. lia. Qed.

Lemma index_defined {A : Type} (l : list A) (i : Z) :
  0 <= i < JS.length l -> exists x, JS.index l i = Some x.
Proof.
  unfold JS.index, JS.length. intros Hi.
  destruct (Z.ltb_spec i 0); [lia|].
  destruct (nth_error l (Z.to_nat i)) eqn:E; [eauto|].
  apply nth_error_None in E. lia.
Qed.

Lemma index_range {A : Type} (l : list A) (i : Z) (x : A) :
  JS.index l i = Some x -> 0 <= i < JS.length l.
Proof.
  unfold JS.index, JS.length.
  destruct (Z.ltb_spec i 0); [discriminate|]. intros E.
  assert (Z.to_nat i < List.length l)%nat by (apply nth_error_Some; congruence).
  lia.
Qed.

(** [slice(0, end)] keeps the first [end] entries. *)
Lemma slice_prefix {A : Type} (l : list A) (e : Z) :
  0 <= e -> JS.slice l 0 e = firstn (Z.to_nat e) l.
Proof.
  intros He. unfold JS.slice, JS.relative.
  pose proof (length_nonneg l) as Hl.
  destruct (Z.ltb_spec 0 0); [lia|].
  destruct (Z.ltb_spec e 0); [lia|].
  rewrite (Z.min_l 0) by lia. simpl skipn. rewrite Z.sub_0_r.
  destruct (Z.le_ge_cases e (JS.length l)) as [Hle|Hge].
  - rewrite Z.min_l by lia. reflexivity.
  - rewrite Z.min_r by lia. unfold JS.length in *.
    rewrite Nat2Z.id. rewrite !firstn_all2 by lia. reflexivity.
Qed.

Lemma length_slice_prefix {A : Type} (l : list A) (e : Z) :
  0 <= e <= JS.length l -> JS.length (JS.slice l 0 e) = e.
Proof.
  intros He. rewrite slice_prefix by lia. unfold JS.length in *.
  rewrite length_firstn. lia.
Qed.

Lemma index_slice_prefix {A : Type} (l : list A) (e i : Z) :
  0 <= i < e -> JS.index (JS.slice l 0 e) i = JS.index l i.
Proof.
  intros Hi. rewrite slice_prefix by lia. unfold JS.index.
  destruct (Z.ltb_spec i 0); [lia|].
  rewrite nth_error_firstn.
  destruct (Nat.ltb_spec (Z.to_nat i) (Z.to_nat e)); [reflexivity|lia].
Qed.

Lemma index_push_last {A : Type} (l : list A) (x : A) :
  JS.index (JS.push l x) (JS.length (JS.push l x) - 1) = Some x.
Proof.
  rewrite length_push. unfold JS.index, JS.push, JS.length.
  destruct (Z.ltb_spec (Z.of_nat (List.length l) + 1 - 1) 0); [lia|].
  rewrite nth_error_app2 by lia.
  replace (Z.to_nat (Z.of_nat (List.length l) + 1 - 1) - List.length l)%nat
    with 0%nat by lia.
  reflexivity.
Qed.

Lemma index_push_before {A : Type} (l : list A) (x : A) (i : Z) :
  i < JS.length l -> JS.index (JS.push l x) i = JS.index l i.
Proof.
  unfold JS.index, JS.push, JS.length. intros Hi.
  destruct (Z.ltb_spec i 0); [reflexivity|].
  apply nth_error_app1. lia.
Qed.

Ltac appended_cursor :=
  unfold consistent; simpl;
  rewrite ?length_push;
  match goal with
  | |- context [JS.length (JS.slice ?l ?a ?b)] =>
      pose proof (length_nonneg (JS.slice l a b)); lia
  end.

Lemma generatedImage_defined (s : App) :
  consistent s -> exists g, generatedImage s = Some g.
Proof.
  unfold consistent, generatedImage. intros Hs.
  destruct (Z.geb_spec (historyIndex s) 0) as [Hge|Hlt]; [|eauto].
  destruct (index_defined (history s) (historyIndex s)) as [item Hitem]; [lia|].
  rewrite Hitem. eauto.
Qed.

Section Invariant.

Variable resizeImage : string -> Z -> Z -> option string.

Lemma handleGenerate_consistent (s : App) (p : string) (reply : Reply) :
  consistent s ->
  exists s', settle (handleGenerate resizeImage s p) reply = Some s' /\ consistent s'.
Proof.
  intros Hs. unfold handleGenerate.
  destruct (originalImage s); simpl; [|eauto].
  destruct (readResponse reply); [|eauto].
  destruct (resizeImage _ _ _); eexists; (split; [reflexivity|]);
    [appended_cursor | exact Hs].
Qed.

Lemma handleDenoise_consistent (s : App) (reply : Reply) :
  consistent s ->
  exists s', settle (handleDenoise resizeImage s) reply = Some s' /\ consistent s'.
Proof.
  intros Hs. unfold handleDenoise.
  destruct (generatedImage_defined s Hs) as [g ->].
  destruct (JS.or _ _); [|simpl; eauto].
  destruct (negb _); [simpl; eauto|].
  destruct (JS.matchDataUri _) as [[mime bytes]|]; simpl; [|eauto].
  destruct (readResponse reply); [|eauto].
  destruct (resizeImage _ _ _); eexists; (split; [reflexivity|]);
    [appended_cursor | exact Hs].
Qed.

Lemma handleAutoEnhance_consistent (s : App) (reply : Reply) :
  consistent s ->
  exists s', settle (handleAutoEnhance resizeImage s) reply = Some s' /\ consistent s'.
Proof.
  intros Hs. unfold handleAutoEnhance.
  destruct (generatedImage_defined s Hs) as [g ->].
  destruct (JS.or _ _); [|simpl; eauto].
  destruct (negb _); [simpl; eauto|].
  destruct (JS.matchDataUri _) as [[mime bytes]|]; simpl; [|eauto].
  destruct (readResponse reply); [|eauto].
  destruct (resizeImage _ _ _); eexists; (split; [reflexivity|]);
    [appended_cursor | exact Hs].
Qed.

Lemma handleApplyFilters_consistent (s : App) (newImage : string) :
  consistent s ->
  exists s', finished (handleApplyFilters s newImage) = Some s' /\ consistent s'.
Proof.
  intros Hs. unfold handleApplyFilters.
  destruct (Z.ltb_spec (historyIndex s) 0) as [Hlt|Hge]; [simpl; eauto|].
  destruct (index_defined (history s) (historyIndex s)) as [item ->];
    [unfold consistent in Hs; lia|].
  eexists; split; [reflexivity|]. appended_cursor.
Qed.

Lemma handleUndo_consistent (s : App) :
  consistent s ->
  exists s', finished (handleUndo s) = Some s' /\ consistent s'.
Proof.
  intros Hs. unfold handleUndo, canUndo.
  destruct (Z.geb_spec (historyIndex s) 0) as [Hge|Hlt]; simpl; [|eauto].
  destruct (Z.geb_spec (historyIndex s - 1) 0) as [Hge'|Hlt'].
  - destruct (index_defined (history s) (historyIndex s - 1)) as [item ->];
      [unfold consistent in Hs; lia|].
    eexists; split; [reflexivity|]. unfold consistent in *; simpl; lia.
  - eexists; split; [reflexivity|]. unfold consistent in *; simpl; lia.
Qed.

Lemma handleRedo_consistent (s : App) :
  consistent s ->
  exists s', finished (handleRedo s) = Some s' /\ consistent s'.
Proof.
  intros Hs. unfold handleRedo, canRedo.
  destruct (Z.ltb_spec (historyIndex s) (JS.length (history s) - 1)) as [Hlt|Hge];
    simpl; [|eauto].
  destruct (index_defined (history s) (historyIndex s + 1)) as [item ->];
    [unfold consistent in Hs; lia|].
  eexists; split; [reflexivity|]. unfold consistent in *; simpl; lia.
Qed.

(** No event stops on a [TypeError] in a consistent state, and the state it
    leads to is consistent. *)
Lemma step_consistent (s : App) (e : Event) :
  consistent s ->
  exists s', step resizeImage s e = Some s' /\ consistent s'.
Proof.
  intros Hs. destruct e; simpl;
    try (eexists; split; [reflexivity|];
         first [exact Hs | unfold consistent; simpl; lia]).
  - apply handleGenerate_consistent, Hs.
  - apply handleDenoise_consistent, Hs.
  - apply handleAutoEnhance_consistent, Hs.
  - apply handleApplyFilters_consistent, Hs.
  - apply handleUndo_consistent, Hs.
  - apply handleRedo_consistent, Hs.
Qed.

Lemma run_consistent (events : list Event) (s : App) :
  consistent s ->
  exists s', run resizeImage s events = Some s' /\ consistent s'.
Proof.
  revert s. induction events as [|e events IH]; intros s Hs; simpl.
  - eauto.
  - destruct (step_consistent s e Hs) as (s1 & -> & Hs1). apply IH, Hs1.
Qed.

(** C1. From a state with an empty history and the cursor at [-1], after
    any sequence of events (appends by generate, denoise, enhance or bake,
    undo, redo, and every other event of a session) the cursor lies in
    [-1, length - 1], [canUndo] holds exactly when the cursor is at least
    [0], and [canRedo] exactly when it is below [length - 1]. *)
Theorem cursor_within_history (s0 : App) (events : list Event) :
  history s0 = [] ->
  historyIndex s0 = -1 ->
  exists s,
    run resizeImage s0 events = Some s /\
    -1 <= historyIndex s <= JS.length (history s) - 1 /\
    (canUndo s = true <-> historyIndex s >= 0) /\
    (canRedo s = true <-> historyIndex s < JS.length (history s) - 1).
Proof.
  intros Hh Hi.
  destruct (run_consistent events s0) as (s & Hrun & Hs).
  { unfold consistent. rewrite Hh, Hi. simpl. lia. }
  exists s. split; [exact Hrun|]. split; [exact Hs|].
  unfold canUndo, canRedo. split.
  - destruct (Z.geb_spec (historyIndex s) 0); split; intros; try lia;
      try reflexivity; discriminate.
  - destruct (Z.ltb_spec (historyIndex s) (JS.length (history s) - 1));
      split; intros; try lia; try reflexivity; discriminate.
Qed.

End Invariant.

(** ** Appending a checkpoint *)

Lemma matchDataUri_truthy (s : string) (groups : string * string) :
  JS.matchDataUri s = Some groups -> JS.truthy (Some s) = true.
Proof.
  destruct s; [discriminate|reflexivity].
Qed.

Section Appending.

Variable resizeImage : string -> Z -> Z -> option string.

(** A denoising or an enhancement of a data URI calls the gateway with its
    two groups, and goes on with what [editImageWithGemini] returns. *)
Lemma handleDenoise_calls (s : App) (mime payload : string) :
  viewsDataUri s mime payload ->
  exists k,
    handleDenoise resizeImage s
    = andThen (editImageWithGemini (Some payload) mime denoisePrompt
                 (Some (getClosestAspectRatio (JS.number (width s))
                                              (JS.number (height s)))))
              k /\
    (forall resultBase64 img,
        resizeImage ("data:image/png;base64," ++ resultBase64) (width s) (height s)
        = Some img ->
        k (Ok resultBase64)
        = (s |> setAppState PROCESSING |> setError None
             |> setHistory (JS.push (JS.slice (history s) 0 (historyIndex s + 1))
                              (HistoryItem.mk img "Remove Noise (AI)"
                                              (width s) (height s)))
             |> setHistoryIndex
                  (JS.length (JS.push (JS.slice (history s) 0 (historyIndex s + 1))
                                (HistoryItem.mk img "Remove Noise (AI)"
                                                (width s) (height s))) - 1)
             |> setPrompt "Remove Noise (AI)"
             |> setAppState COMPLETE)) /\
    (forall message,
        k (Throw message)
        = (s |> setAppState PROCESSING |> setError None
             |> setError (Some (JS.orDefault message "Denoising failed."))
             |> setAppState ERROR)).
Proof.
  intros (viewed & sourceImage & Hg & Hor & Hm).
  pose proof (matchDataUri_truthy _ _ Hm) as Ht.
  unfold handleDenoise. rewrite Hg, Hor, Ht. cbn [negb]. rewrite Hm.
  eexists. split; [reflexivity|]. split.
  - intros r img Hz. cbv beta iota zeta. rewrite Hz. reflexivity.
  - reflexivity.
Qed.

Lemma handleAutoEnhance_calls (s : App) (mime payload : string) :
  viewsDataUri s mime payload ->
  exists k,
    handleAutoEnhance resizeImage s
    = andThen (editImageWithGemini (Some payload) mime enhancePrompt
                 (Some (getClosestAspectRatio (JS.number (width s))
                                              (JS.number (height s)))))
              k /\
    (forall resultBase64 img,
        resizeImage ("data:image/png;base64," ++ resultBase64) (width s) (height s)
        = Some img ->
        k (Ok resultBase64)
        = (s |> setAppState PROCESSING |> setError None
             |> setHistory (JS.push (JS.slice (history s) 0 (historyIndex s + 1))
                              (HistoryItem.mk img "Auto Enhance (AI)"
                                              (width s) (height s)))
             |> setHistoryIndex
                  (JS.length (JS.push (JS.slice (history s) 0 (historyIndex s + 1))
                                (HistoryItem.mk img "Auto Enhance (AI)"
                                                (width s) (height s))) - 1)
             |> setPrompt "Auto Enhance (AI)"
             |> setAppState COMPLETE)) /\
    (forall message,
        k (Throw message)
        = (s |> setAppState PROCESSING |> setError None
             |> setError (Some (JS.orDefault message "Auto enhancement failed."))
             |> setAppState ERROR)).
Proof.
  intros (viewed & sourceImage & Hg & Hor & Hm).
  pose proof (matchDataUri_truthy _ _ Hm) as Ht.
  unfold handleAutoEnhance. rewrite Hg, Hor, Ht. cbn [negb]. rewrite Hm.
  eexists. split; [reflexivity|]. split.
  - intros r img Hz. cbv beta iota zeta. rewrite Hz. reflexivity.
  - reflexivity.
Qed.

Lemma appends_step (s : App) (e : Event) (item : HistoryItem.t) :
  Appends resizeImage s e item ->
  exists s',
    step resizeImage s e = Some s' /\
    history s' = JS.push (JS.slice (history s) 0 (historyIndex s + 1)) item /\
    historyIndex s' = JS.length (history s') - 1.
Proof.
  intros [p reply img Ho (r & Hr & Hz)
         | reply img mime payload Hview (r & Hr & Hz)
         | reply img mime payload Hview (r & Hr & Hz)
         | newImage cur Hcur]; simpl.
  - unfold handleGenerate. destruct (originalImage s); [|congruence].
    cbn [settle andThen editImageWithGemini]. rewrite Hr, Hz.
    eexists. repeat split.
  - destruct (handleDenoise_calls s mime payload Hview) as (k & -> & Hok & _).
    cbn [settle andThen editImageWithGemini]. rewrite Hr, (Hok r img Hz).
    eexists. repeat split.
  - destruct (handleAutoEnhance_calls s mime payload Hview) as (k & -> & Hok & _).
    cbn [settle andThen editImageWithGemini]. rewrite Hr, (Hok r img Hz).
    eexists. repeat split.
  - unfold handleApplyFilters. pose proof (index_range _ _ _ Hcur) as Hi.
    destruct (Z.ltb_spec (historyIndex s) 0); [lia|].
    rewrite Hcur. eexists. repeat split.
Qed.

Lemma appends_appended (s : App) (e : Event) (item : HistoryItem.t) :
  consistent s ->
  Appends resizeImage s e item ->
  exists s', step resizeImage s e = Some s' /\ appended s s' item.
Proof.
  intros Hs Ha. destruct (appends_step s e item Ha) as (s' & Hstep & Hh & Hi).
  exists s'. split; [exact Hstep|]. unfold consistent in Hs.
  assert (Hlen : JS.length (history s') = historyIndex s + 2).
  { rewrite Hh, length_push, length_slice_prefix; lia. }
  unfold appended. repeat split.
  - rewrite Hh. unfold JS.push. rewrite slice_prefix by lia. reflexivity.
  - exact Hlen.
  - exact Hi.
  - intros i Hrange. rewrite Hh.
    rewrite index_push_before by (rewrite length_slice_prefix; lia).
    apply index_slice_prefix. lia.
  - rewrite Hi, Hh. apply index_push_last.
Qed.

Lemma undo_moves_cursor (s s' : App) :
  consistent s ->
  0 <= historyIndex s ->
  step resizeImage s Undo = Some s' ->
  history s' = history s /\ historyIndex s' = historyIndex s - 1.
Proof.
  intros Hs Hi. simpl. unfold handleUndo, canUndo.
  destruct (Z.geb_spec (historyIndex s) 0); [|lia]. simpl.
  destruct (Z.geb_spec (historyIndex s - 1) 0).
  - destruct (JS.index _ _); simpl; [|discriminate].
    intros [= <-]. split; reflexivity.
  - simpl. intros [= <-]. split; reflexivity.
Qed.

(** C2. An append by generate, denoise, enhance or bake always goes
    through: it keeps the checkpoints up to the cursor, drops the ones
    after it, adds the new checkpoint at the end and moves the cursor onto
    it. So after appending A, B and C to an empty history, undoing twice
    and appending D, the history is A, D with the cursor at [1], and redo
    changes nothing. *)
Theorem append_discards_forward_history :
  (forall (s : App) (e : Event) (item : HistoryItem.t),
      consistent s ->
      Appends resizeImage s e item ->
      exists s', step resizeImage s e = Some s' /\ appended s s' item) /\
  (forall (s0 s1 s2 s3 s4 s5 s6 : App) (eA eB eC eD : Event)
          (A B C D : HistoryItem.t),
      history s0 = [] -> historyIndex s0 = -1 ->
      Appends resizeImage s0 eA A -> step resizeImage s0 eA = Some s1 ->
      Appends resizeImage s1 eB B -> step resizeImage s1 eB = Some s2 ->
      Appends resizeImage s2 eC C -> step resizeImage s2 eC = Some s3 ->
      step resizeImage s3 Undo = Some s4 ->
      step resizeImage s4 Undo = Some s5 ->
      Appends resizeImage s5 eD D -> step resizeImage s5 eD = Some s6 ->
      historyIndex s5 = 0 /\
      history s6 = [A; D] /\ historyIndex s6 = 1 /\
      step resizeImage s6 Redo = Some s6).
Proof.
  split; [exact appends_appended|].
  intros s0 s1 s2 s3 s4 s5 s6 eA eB eC eD A B C D Hh0 Hi0
         HA H1 HB H2 HC H3 H4 H5 HD H6.
  assert (Hs0 : consistent s0) by (unfold consistent; rewrite Hh0, Hi0; simpl; lia).
  assert (Hnext : forall s e item s',
             consistent s -> Appends resizeImage s e item -> step resizeImage s e = Some s' ->
             appended s s' item /\ consistent s').
  { intros s e item s' Hs Ha Hstep.
    destruct (appends_appended s e item Hs Ha) as (s'' & Hstep' & Happ).
    assert (s'' = s') by congruence. subst s''. split; [exact Happ|].
    destruct Happ as (_ & Hlen & Hcur & _). unfold consistent in *. lia. }
  destruct (Hnext _ _ _ _ Hs0 HA H1) as ((Hh1 & _ & Hi1 & _) & Hs1).
  rewrite Hh0, Hi0 in Hh1. simpl in Hh1. rewrite Hh1 in Hi1. simpl in Hi1.
  destruct (Hnext _ _ _ _ Hs1 HB H2) as ((Hh2 & _ & Hi2 & _) & Hs2).
  rewrite Hh1, Hi1 in Hh2. simpl in Hh2. rewrite Hh2 in Hi2. simpl in Hi2.
  destruct (Hnext _ _ _ _ Hs2 HC H3) as ((Hh3 & _ & Hi3 & _) & Hs3).
  rewrite Hh2, Hi2 in Hh3. simpl in Hh3. rewrite Hh3 in Hi3. simpl in Hi3.
  destruct (undo_moves_cursor s3 s4 Hs3 ltac:(lia) H4) as (Hh4 & Hi4).
  assert (Hs4 : consistent s4)
    by (unfold consistent; rewrite Hh4, Hi4, Hh3, Hi3; simpl; lia).
  destruct (undo_moves_cursor s4 s5 Hs4 ltac:(lia) H5) as (Hh5 & Hi5).
  assert (Hs5 : consistent s5)
    by (unfold consistent; rewrite Hh5, Hi5, Hh4, Hi4, Hh3, Hi3; simpl; lia).
  destruct (Hnext _ _ _ _ Hs5 HD H6) as ((Hh6 & _ & Hi6 & _) & Hs6).
  rewrite Hh5, Hi5, Hh4, Hi4, Hh3, Hi3 in Hh6. simpl in Hh6.
  rewrite Hh6 in Hi6. simpl in Hi6.
  repeat split.
  - lia.
  - exact Hh6.
  - exact Hi6.
  - simpl. unfold handleRedo, canRedo. rewrite Hh6, Hi6. reflexivity.
Qed.

End Appending.

(** ** Undo *)

(** C3, as amended. With the cursor at [0] or more, undo moves the cursor
    back by one and leaves the history as it is. If the new cursor is
    still at [0] or more, the prompt, the target width and the target
    height become those of the checkpoint now selected and the state is
    [COMPLETE]. If the new cursor is [-1], the state is [READY_TO_EDIT] and
    the prompt, the width and the height are left as they were. *)
Theorem undo_restores_checkpoint (s : App) :
  consistent s ->
  0 <= historyIndex s ->
  exists s',
    handleUndo s = Done s' /\
    historyIndex s' = historyIndex s - 1 /\
    history s' = history s /\
    (0 <= historyIndex s' ->
     exists item,
       JS.index (history s') (historyIndex s') = Some item /\
       prompt s' = HistoryItem.prompt item /\
       width s' = HistoryItem.width item /\
       height s' = HistoryItem.height item /\
       appState s' = COMPLETE) /\
    (historyIndex s' < 0 ->
     historyIndex s' = -1 /\
     appState s' = READY_TO_EDIT /\
     prompt s' = prompt s /\
     width s' = width s /\
     height s' = height s).
Proof.
  intros Hs Hi. unfold consistent in Hs. unfold handleUndo, canUndo.
  destruct (Z.geb_spec (historyIndex s) 0); [|lia]. cbn [negb].
  destruct (Z.geb_spec (historyIndex s - 1) 0) as [Hge|Hlt].
  - destruct (index_defined (history s) (historyIndex s - 1)) as [item Hitem];
      [lia|].
    rewrite Hitem. eexists. split; [reflexivity|]. simpl.
    repeat split; try lia.
    intros _. exists item. repeat split. exact Hitem.
  - eexists. split; [reflexivity|]. simpl. repeat split; lia.
Qed.

(** After a denoising of the uploaded image, undo goes back to the source
    with the label of the denoising still in the prompt, not the text the
    user entered. *)
Lemma undo_to_source_keeps_prompt :
  let events :=
    [ImageSelected photo; PromptInput "make it red"; Denoise (inlineReply "QUJD")] in
  exists s s',
    run keepImage initial events = Some s /\
    historyIndex s = 0 /\
    handleUndo s = Done s' /\
    historyIndex s' = -1 /\
    appState s' = READY_TO_EDIT /\
    lastUserPrompt events = "make it red" /\
    prompt s' = "Remove Noise (AI)" /\
    prompt s' <> lastUserPrompt events.
Proof.
  simpl. eexists. eexists.
  split; [reflexivity|]. split; [reflexivity|]. split; [reflexivity|].
  repeat split. discriminate.
Qed.

(** ** Baking a local adjustment *)

(** C7. Baking does nothing when no checkpoint is selected. When one is,
    it appends a checkpoint with the new pixels and with the prompt label,
    the target width and the target height of the selected checkpoint, and
    changes nothing else in the session. *)
Theorem bake_keeps_label_and_size (s : App) (newImage : string) :
  consistent s ->
  (historyIndex s < 0 -> handleApplyFilters s newImage = Done s) /\
  (0 <= historyIndex s ->
   exists currentItem s',
     JS.index (history s) (historyIndex s) = Some currentItem /\
     handleApplyFilters s newImage = Done s' /\
     appended s s' (HistoryItem.mk newImage
                                   (HistoryItem.prompt currentItem)
                                   (HistoryItem.width currentItem)
                                   (HistoryItem.height currentItem)) /\
     s' = (s |> setHistory (history s') |> setHistoryIndex (historyIndex s'))).
Proof.
  intros Hs. split; intros Hi; unfold handleApplyFilters.
  - destruct (Z.ltb_spec (historyIndex s) 0); [reflexivity|lia].
  - destruct (index_defined (history s) (historyIndex s)) as [cur Hcur];
      [unfold consistent in Hs; lia|].
    destruct (appends_appended keepImage s (ApplyFilters newImage) _ Hs
                (AppendsApplyFilters keepImage s newImage cur Hcur))
      as (s' & Hstep & Happ).
    simpl in Hstep. unfold handleApplyFilters in Hstep.
    destruct (Z.ltb_spec (historyIndex s) 0); [lia|].
    rewrite Hcur in *. simpl in Hstep. injection Hstep as Hs'.
    exists cur. eexists. split; [reflexivity|]. split; [reflexivity|].
    split; [rewrite Hs'; exact Happ|]. reflexivity.
Qed.

(** ** Replacing the source image *)

(** C4, as amended. An upload and an accepted crop both replace the source
    image, move the session to [READY_TO_EDIT], empty the history with the
    cursor at [-1] and clear the error. The upload also clears the prompt;
    the accepted crop keeps the prompt as it is. *)
Theorem source_replacement_clears_history
    (s : App) (image : ProcessedImage) (croppedBase64 : string) :
  let uploaded := handleImageSelected s image in
  let cropped := handleCroppedImageSelected s croppedBase64 in
  (originalImage uploaded = Some image /\
   appState uploaded = READY_TO_EDIT /\
   history uploaded = [] /\
   historyIndex uploaded = -1 /\
   error uploaded = None /\
   prompt uploaded = "") /\
  (originalImage cropped = Some (mkProcessedImage croppedBase64 "image/png") /\
   appState cropped = READY_TO_EDIT /\
   history cropped = [] /\
   historyIndex cropped = -1 /\
   error cropped = None /\
   prompt cropped = prompt s).
Proof.
  simpl. repeat split.
Qed.

(** An accepted crop leaves the prompt the user entered in place. *)
Lemma crop_keeps_prompt :
  exists s,
    run keepImage initial
        [ImageSelected photo; PromptInput "make it red"; CropOriginal;
         CroppedImageSelected "data:image/png;base64,QUJD"] = Some s /\
    originalImage s = Some (mkProcessedImage "data:image/png;base64,QUJD" "image/png") /\
    prompt s = "make it red" /\
    prompt s <> "".
Proof.
  eexists. split; [reflexivity|]. simpl. repeat split. discriminate.
Qed.

(** ** Failure of the gateway *)

Lemma orDefault_message (m fallback : string) :
  m <> "" -> JS.orDefault (Some m) fallback = m.
Proof.
  intros Hm. unfold JS.orDefault, JS.or, JS.truthy.
  destruct (String.eqb_spec m ""); [contradiction|reflexivity].
Qed.

(** C5. When the gateway fails on the call of a generation (with a source
    image in place), of a denoising or of an enhancement (of an image that
    is a base64 data URI), the session is in the [ERROR] state with the
    message of the failure, and the history and its cursor are what they
    were before the call, so the same checkpoints are selected and
    reachable by undo. *)
Theorem gateway_failure_keeps_history
    (resizeImage : string -> Z -> Z -> option string)
    (s : App) (reply : Reply) (message : option string) :
  readResponse reply = Throw message ->
  (forall currentPrompt,
      originalImage s <> None ->
      exists s',
        step resizeImage s (Generate currentPrompt reply) = Some s' /\
        failedWith s s' message "Something went wrong during generation.") /\
  (forall mime payload,
      viewsDataUri s mime payload ->
      (exists s',
          step resizeImage s (Denoise reply) = Some s' /\
          failedWith s s' message "Denoising failed.") /\
      (exists s',
          step resizeImage s (AutoEnhance reply) = Some s' /\
          failedWith s s' message "Auto enhancement failed.")) /\
  (forall m fallback, message = Some m -> m <> "" ->
                      JS.orDefault message fallback = m).
Proof.
  intros Hr. split; [|split].
  - intros p. simpl. unfold handleGenerate.
    destruct (originalImage s); [|congruence]. intros _.
    cbn [settle andThen editImageWithGemini]. rewrite Hr.
    eexists. split; [reflexivity|]. repeat split.
  - intros mime payload Hview. split.
    + destruct (handleDenoise_calls resizeImage s mime payload Hview)
        as (k & Hcall & _ & Hthrow).
      simpl. rewrite Hcall. cbn [settle andThen editImageWithGemini].
      rewrite Hr, Hthrow. eexists. split; [reflexivity|]. repeat split.
    + destruct (handleAutoEnhance_calls resizeImage s mime payload Hview)
        as (k & Hcall & _ & Hthrow).
      simpl. rewrite Hcall. cbn [settle andThen editImageWithGemini].
      rewrite Hr, Hthrow. eexists. split; [reflexivity|]. repeat split.
  - intros m fallback -> Hm. apply orDefault_message, Hm.
Qed.

(** ** Reset *)

(** C6. Asking for a reset only raises the confirmation: the source image,
    the history, the cursor, the prompt, the target size, the error and
    the state stay as they are. Confirming clears the source image,
    empties the history with the cursor at [-1], clears the prompt and the
    error, sets the target size to 1024 x 1024 and returns to [IDLE]. No
    other event clears the source image or returns to [IDLE]. *)
Theorem reset_is_two_phase (s : App) :
  (let requested := handleResetRequest s in
   showResetConfirmation requested = true /\
   requested = (s |> setShowResetConfirmation true) /\
   originalImage requested = originalImage s /\
   history requested = history s /\
   historyIndex requested = historyIndex s /\
   prompt requested = prompt s /\
   width requested = width s /\
   height requested = height s /\
   error requested = error s /\
   appState requested = appState s) /\
  (let confirmed := handleConfirmReset (handleResetRequest s) in
   originalImage confirmed = None /\
   history confirmed = [] /\
   historyIndex confirmed = -1 /\
   prompt confirmed = "" /\
   error confirmed = None /\
   width confirmed = 1024 /\
   height confirmed = 1024 /\
   appState confirmed = IDLE /\
   showResetConfirmation confirmed = false) /\
  (forall resizeImage e s',
      step resizeImage s e = Some s' ->
      e <> ConfirmReset ->
      (originalImage s <> None -> originalImage s' <> None) /\
      (appState s <> IDLE -> appState s' <> IDLE)).
Proof.
  split; [simpl; repeat split|]. split; [simpl; repeat split|].
  intros resizeImage e s' Hstep He.
  destruct e as [image|w h| | |c| | | |text|w|h|p reply|reply|reply|newImage| | ];
    try congruence; revert Hstep; simpl;
    unfold handleGenerate, handleDenoise, handleAutoEnhance,
           handleApplyFilters, handleUndo, handleRedo;
    repeat match goal with
           | |- context [match ?x with _ => _ end] =>
               lazymatch x with
               | context [match _ with _ => _ end] => fail
               | _ => destruct x eqn:?
               end
           end;
    cbn [settle finished andThen editImageWithGemini];
    repeat match goal with
           | |- context [match ?x with _ => _ end] => destruct x eqn:?
           end;
    try discriminate;
    intros [= <-]; simpl; split; intros H;
    first [exact H | discriminate | congruence].
Qed.

(** ** Rotation *)

Lemma handleRotate_quarter (direction : ResultViewer.Direction) (r : Z) :
  r = 0 \/ r = 90 \/ r = 180 \/ r = 270 ->
  let r' := ResultViewer.handleRotate direction r in
  r' = 0 \/ r' = 90 \/ r' = 180 \/ r' = 270.
Proof.
  intros [-> | [-> | [-> | ->]]]; destruct direction; vm_compute; tauto.
Qed.

Lemma rotate_quarter (clicks : list ResultViewer.Direction) (r : Z) :
  r = 0 \/ r = 90 \/ r = 180 \/ r = 270 ->
  let r' := ResultViewer.rotate clicks r in
  r' = 0 \/ r' = 90 \/ r' = 180 \/ r' = 270.
Proof.
  revert r. induction clicks as [|d clicks IH]; intros r Hr; simpl.
  - exact Hr.
  - apply IH. apply handleRotate_quarter, Hr.
Qed.

(** C9. The rotation reached by any sequence of clicks is a multiple of 90
    in [0, 360). Two clockwise quarter-turns add 180 degrees (from 0 they
    give 180) and give the canvas the size it had before them, which at
    180 is the size of the image; one quarter-turn in either direction
    swaps the width and the height of the canvas, and the canvas of a
    rotation not divisible by 180 has the height of the image as its width
    and the width of the image as its height. *)
Theorem rotation_by_quarter_turns
    (clicks : list ResultViewer.Direction) (img_width img_height : Z) :
  let r := ResultViewer.rotate clicks 0 in
  let size rotation := ResultViewer.canvasSize rotation img_width img_height in
  (0 <= r < 360 /\ JS.rem r 90 = 0) /\
  ResultViewer.rotate [ResultViewer.cw; ResultViewer.cw] r = JS.rem (r + 180) 360 /\
  ResultViewer.rotate [ResultViewer.cw; ResultViewer.cw] 0 = 180 /\
  size (ResultViewer.rotate [ResultViewer.cw; ResultViewer.cw] r) = size r /\
  size 180 = (img_width, img_height) /\
  size 0 = (img_width, img_height) /\
  (forall direction,
      size (ResultViewer.handleRotate direction r) = (snd (size r), fst (size r))) /\
  (forall direction,
      size (ResultViewer.handleRotate direction 0) = (img_height, img_width)) /\
  (JS.rem r 180 <> 0 <-> r = 90 \/ r = 270) /\
  (JS.rem r 180 <> 0 -> size r = (img_height, img_width)).
Proof.
  intros r size.
  assert (Hr : r = 0 \/ r = 90 \/ r = 180 \/ r = 270)
    by (apply rotate_quarter; tauto).
  clearbody r. unfold size.
  destruct Hr as [-> | [-> | [-> | ->]]];
    (split; [vm_compute; repeat split; congruence|]);
    repeat split; try reflexivity;
    try (intros direction; destruct direction; reflexivity);
    try (vm_compute; intros; tauto);
    try (vm_compute; intros H; first [lia | exfalso; apply H; reflexivity]);
    try (vm_compute; intros [H|H]; discriminate).
Qed.

(** ** What is sent to the gateway *)

Lemma split_whole (sep : ascii) (s : string) :
  without sep s = true -> JS.split sep s = [s].
Proof.
  induction s as [|c s IH]; simpl; [reflexivity|].
  intros H. apply andb_true_iff in H as [Hc Hs].
  apply negb_true_iff in Hc. rewrite Hc, (IH Hs). reflexivity.
Qed.

Lemma split_at (sep : ascii) (a b : string) :
  without sep a = true ->
  JS.split sep (a ++ String sep b) = a :: JS.split sep b.
Proof.
  induction a as [|c a IH]; simpl.
  - intros _. rewrite Ascii.eqb_refl. reflexivity.
  - intros H. apply andb_true_iff in H as [Hc Ha].
    apply negb_true_iff in Hc. rewrite Hc, (IH Ha). reflexivity.
Qed.

(** The second piece of a data URI cut at its comma is its payload. *)
Lemma split_payload (header payload : string) :
  without "," header = true ->
  without "," payload = true ->
  nth_error (JS.split "," (header ++ "," ++ payload)) 1 = Some payload.
Proof.
  intros Hh Hp. change ("," ++ payload) with (String "," payload).
  rewrite split_at by exact Hh. rewrite split_whole by exact Hp. reflexivity.
Qed.

(** C10. A generation sends the gateway the payload and the mime type of
    the source image, whatever the history and its cursor are. A denoising
    or an enhancement sends the payload of the image of the selected
    checkpoint, or of the source image when the cursor is [-1]. *)
Theorem generate_sends_source
    (resizeImage : string -> Z -> Z -> option string)
    (s : App) (original : ProcessedImage) :
  originalImage s = Some original ->
  let aspectRatio :=
    getClosestAspectRatio (JS.number (width s)) (JS.number (height s)) in
  (forall currentPrompt,
      sent (handleGenerate resizeImage s currentPrompt)
      = Some (Request.mk (nth_error (JS.split "," (originalData original)) 1)
                         (mimeType original) currentPrompt aspectRatio)) /\
  (forall header payload,
      originalData original = header ++ "," ++ payload ->
      without "," header = true ->
      without "," payload = true ->
      nth_error (JS.split "," (originalData original)) 1 = Some payload) /\
  (forall currentPrompt checkpoints cursor,
      sent (handleGenerate resizeImage
              (s |> setHistory checkpoints |> setHistoryIndex cursor)
              currentPrompt)
      = sent (handleGenerate resizeImage s currentPrompt)) /\
  (forall currentItem mime payload,
      JS.index (history s) (historyIndex s) = Some currentItem ->
      JS.matchDataUri (HistoryItem.image currentItem) = Some (mime, payload) ->
      sent (handleDenoise resizeImage s)
      = Some (Request.mk (Some payload) mime denoisePrompt aspectRatio) /\
      sent (handleAutoEnhance resizeImage s)
      = Some (Request.mk (Some payload) mime enhancePrompt aspectRatio)) /\
  (forall mime payload,
      historyIndex s = -1 ->
      JS.matchDataUri (originalData original) = Some (mime, payload) ->
      sent (handleDenoise resizeImage s)
      = Some (Request.mk (Some payload) mime denoisePrompt aspectRatio) /\
      sent (handleAutoEnhance resizeImage s)
      = Some (Request.mk (Some payload) mime enhancePrompt aspectRatio)).
Proof.
  intros Ho aspectRatio. repeat apply conj.
  - intros p. unfold handleGenerate. rewrite Ho. reflexivity.
  - intros header payload -> Hh Hp. apply split_payload; assumption.
  - intros p checkpoints cursor. unfold handleGenerate. simpl.
    rewrite Ho. reflexivity.
  - intros cur mime payload Hcur Hm.
    pose proof (index_range _ _ _ Hcur) as Hi.
    pose proof (matchDataUri_truthy _ _ Hm) as Ht.
    unfold handleDenoise, handleAutoEnhance, generatedImage.
    destruct (Z.geb_spec (historyIndex s) 0); [|lia].
    rewrite Hcur. unfold JS.or. rewrite Ht. cbv beta iota zeta.
    rewrite Ht, Hm. split; reflexivity.
  - intros mime payload Hi Hm.
    pose proof (matchDataUri_truthy _ _ Hm) as Ht.
    unfold handleDenoise, handleAutoEnhance, generatedImage.
    rewrite Hi, Ho. cbn [Z.geb Z.compare option_map]. unfold JS.or.
    change (JS.truthy None) with false. cbv beta iota zeta.
    rewrite Ht, Hm. split; reflexivity.
Qed.

(** ** The statements on sample sessions *)

(** A session with successful and failed calls, undo past the first
    checkpoint, redo and a bake. *)
Lemma cursor_within_history_witness :
  exists s,
    run keepImage (handleImageSelected initial photo)
        [Generate "A" (inlineReply "QQ");
         Denoise (Rejected (Some "quota exceeded"));
         Generate "B" (inlineReply "Qg");
         Undo; Undo; Undo; Redo;
         ApplyFilters "data:image/png;base64,Qw";
         AutoEnhance (inlineReply "RA")] = Some s /\
    -1 <= historyIndex s <= JS.length (history s) - 1 /\
    (canUndo s = true <-> historyIndex s >= 0) /\
    (canRedo s = true <-> historyIndex s < JS.length (history s) - 1).
Proof.
  apply (cursor_within_history keepImage); reflexivity.
Defined.

(** A by a generation, B by a denoising, C by an enhancement, undo, undo,
    D by the baking of an adjustment of A. *)
Lemma append_discards_forward_history_witness :
  let A := HistoryItem.mk "data:image/png;base64,QQ" "A" 1024 1024 in
  let B := HistoryItem.mk "data:image/png;base64,Qg" "Remove Noise (AI)" 1024 1024 in
  let C := HistoryItem.mk "data:image/png;base64,Qw" "Auto Enhance (AI)" 1024 1024 in
  let D := HistoryItem.mk "data:image/png;base64,RA" "A" 1024 1024 in
  let s0 := handleImageSelected initial photo in
  let s1 := after s0 (Generate "A" (inlineReply "QQ")) in
  let s2 := after s1 (Denoise (inlineReply "Qg")) in
  let s3 := after s2 (AutoEnhance (inlineReply "Qw")) in
  let s5 := after (after s3 Undo) Undo in
  let s6 := after s5 (ApplyFilters "data:image/png;base64,RA") in
  appended s0 s1 A /\
  appended s1 s2 B /\
  appended s2 s3 C /\
  history s3 = [A; B; C] /\
  historyIndex s5 = 0 /\
  appended s5 s6 D /\
  history s6 = [A; D] /\
  historyIndex s6 = 1 /\
  step keepImage s6 Redo = Some s6.
Proof.
  intros A B C D s0 s1 s2 s3 s5 s6.
  pose (eA := Generate "A" (inlineReply "QQ")).
  pose (eB := Denoise (inlineReply "Qg")).
  pose (eC := AutoEnhance (inlineReply "Qw")).
  pose (eD := ApplyFilters "data:image/png;base64,RA").
  pose (s4 := after s3 Undo).
  assert (HA : Appends keepImage s0 eA A).
  { apply (AppendsGenerate keepImage s0 "A" (inlineReply "QQ")
                           "data:image/png;base64,QQ").
    - discriminate.
    - exists "QQ". split; reflexivity. }
  assert (HB : Appends keepImage s1 eB B).
  { apply (AppendsDenoise keepImage s1 (inlineReply "Qg")
                          "data:image/png;base64,Qg" "image/png" "QQ").
    - exists (Some "data:image/png;base64,QQ"), "data:image/png;base64,QQ".
      split; [reflexivity|]. split; reflexivity.
    - exists "Qg". split; reflexivity. }
  assert (HC : Appends keepImage s2 eC C).
  { apply (AppendsAutoEnhance keepImage s2 (inlineReply "Qw")
                              "data:image/png;base64,Qw" "image/png" "Qg").
    - exists (Some "data:image/png;base64,Qg"), "data:image/png;base64,Qg".
      split; [reflexivity|]. split; reflexivity.
    - exists "Qw". split; reflexivity. }
  assert (HD : Appends keepImage s5 eD D).
  { apply (AppendsApplyFilters keepImage s5 "data:image/png;base64,RA" A).
    reflexivity. }
  assert (Hs0 : consistent s0).
  { unfold consistent. change (historyIndex s0) with (-1).
    change (JS.length (history s0)) with 0. lia. }
  assert (Hs1 : consistent s1).
  { unfold consistent. change (historyIndex s1) with 0.
    change (JS.length (history s1)) with 1. lia. }
  assert (Hs2 : consistent s2).
  { unfold consistent. change (historyIndex s2) with 1.
    change (JS.length (history s2)) with 2. lia. }
  assert (Hs5 : consistent s5).
  { unfold consistent. change (historyIndex s5) with 0.
    change (JS.length (history s5)) with 3. lia. }
  destruct (append_discards_forward_history keepImage) as [Happend Hexample].
  destruct (Hexample s0 s1 s2 s3 s4 s5 s6 eA eB eC eD A B C D
              eq_refl eq_refl HA eq_refl HB eq_refl HC eq_refl
              eq_refl eq_refl HD eq_refl)
    as (Hcursor & Hhistory & Hlast & Hredo).
  assert (Hnext : forall s e item,
             consistent s -> Appends keepImage s e item ->
             appended s (after s e) item).
  { intros s e item Hs Ha.
    destruct (Happend s e item Hs Ha) as (s' & Hstep & Happended).
    unfold after. rewrite Hstep. exact Happended. }
  split; [exact (Hnext s0 eA A Hs0 HA)|].
  split; [exact (Hnext s1 eB B Hs1 HB)|].
  split; [exact (Hnext s2 eC C Hs2 HC)|].
  split; [reflexivity|].
  split; [exact Hcursor|].
  split; [exact (Hnext s5 eD D Hs5 HD)|].
  split; [exact Hhistory|].
  split; [exact Hlast | exact Hredo].
Defined.

(** Undo from the second of two checkpoints: the prompt, empty since the
    upload, becomes the one of the first checkpoint. *)
Lemma undo_restores_checkpoint_witness :
  exists s',
    handleUndo twoCheckpoints = Done s' /\
    historyIndex s' = 0 /\
    history s' = history twoCheckpoints /\
    prompt twoCheckpoints = "" /\
    prompt s' = "A" /\
    appState s' = COMPLETE.
Proof.
  assert (Hcursor : historyIndex twoCheckpoints = 1) by reflexivity.
  assert (Hlength : JS.length (history twoCheckpoints) = 2) by reflexivity.
  destruct (undo_restores_checkpoint twoCheckpoints)
    as (s' & Hundo & Hi & Hh & Hsel & _).
  - unfold consistent. rewrite Hcursor, Hlength. lia.
  - rewrite Hcursor. lia.
  - exists s'. destruct Hsel as (item & Hitem & Hp & _ & _ & Hstate).
    + rewrite Hi, Hcursor. lia.
    + assert (Hs' : Done s' = Done (setAppState COMPLETE
                           (setHeight 1024 (setWidth 1024 (setPrompt "A"
                              (setHistoryIndex 0 twoCheckpoints))))))
        by (rewrite <- Hundo; reflexivity).
      injection Hs' as Hs'.
      split; [exact Hundo|].
      split; [rewrite Hi, Hcursor; reflexivity|].
      split; [exact Hh|].
      split; [reflexivity|].
      split; [rewrite Hs'; reflexivity | exact Hstate].
Defined.

(** Baking on the second of two checkpoints. *)
Lemma bake_keeps_label_and_size_witness :
  exists currentItem s',
    JS.index (history twoCheckpoints) (historyIndex twoCheckpoints)
    = Some currentItem /\
    handleApplyFilters twoCheckpoints "data:image/png;base64,Qw" = Done s' /\
    appended twoCheckpoints s'
             (HistoryItem.mk "data:image/png;base64,Qw"
                             (HistoryItem.prompt currentItem)
                             (HistoryItem.width currentItem)
                             (HistoryItem.height currentItem)) /\
    s' = (twoCheckpoints |> setHistory (history s')
                         |> setHistoryIndex (historyIndex s')).
Proof.
  assert (Hcursor : historyIndex twoCheckpoints = 1) by reflexivity.
  assert (Hlength : JS.length (history twoCheckpoints) = 2) by reflexivity.
  apply (bake_keeps_label_and_size twoCheckpoints "data:image/png;base64,Qw").
  - unfold consistent. rewrite Hcursor, Hlength. lia.
  - rewrite Hcursor. lia.
Defined.

(** With two checkpoints in place: a generation refused by the service,
    a denoising answered without an image, and an enhancement answered
    with a candidate that has no content. *)
Lemma gateway_failure_keeps_history_witness :
  let refused := Rejected (Some "quota exceeded") in
  let empty := Response (Some [Candidate.Parts [Part.mk None]]) in
  let blocked := Response (Some [Candidate.NoParts "parts is undefined"]) in
  exists generated denoised enhanced,
    step keepImage twoCheckpoints (Generate "C" refused) = Some generated /\
    failedWith twoCheckpoints generated (Some "quota exceeded")
               "Something went wrong during generation." /\
    error generated = Some "quota exceeded" /\
    step keepImage twoCheckpoints (Denoise empty) = Some denoised /\
    failedWith twoCheckpoints denoised (Some noImageData) "Denoising failed." /\
    step keepImage twoCheckpoints (AutoEnhance blocked) = Some enhanced /\
    failedWith twoCheckpoints enhanced (Some "parts is undefined")
               "Auto enhancement failed.".
Proof.
  intros refused empty blocked.
  assert (Hview : viewsDataUri twoCheckpoints "image/png" "Qg").
  { exists (Some "data:image/png;base64,Qg"), "data:image/png;base64,Qg".
    split; [reflexivity|]. split; reflexivity. }
  destruct (gateway_failure_keeps_history keepImage twoCheckpoints
              refused (Some "quota exceeded") eq_refl)
    as (Hgenerate & _ & Hmessage).
  destruct (gateway_failure_keeps_history keepImage twoCheckpoints
              empty (Some noImageData) eq_refl)
    as (_ & Hempty & _).
  destruct (gateway_failure_keeps_history keepImage twoCheckpoints
              blocked (Some "parts is undefined") eq_refl)
    as (_ & Hblocked & _).
  destruct (Hgenerate "C") as (generated & Hg & Hgf); [discriminate|].
  destruct (Hempty "image/png" "Qg" Hview) as ((denoised & Hd & Hdf) & _).
  destruct (Hblocked "image/png" "Qg" Hview) as (_ & (enhanced & He & Hef)).
  exists generated, denoised, enhanced.
  split; [exact Hg|]. split; [exact Hgf|].
  split.
  { destruct Hgf as (_ & Herror & _). rewrite Herror.
    rewrite (Hmessage "quota exceeded"); [reflexivity | reflexivity | discriminate]. }
  split; [exact Hd|]. split; [exact Hdf|].
  split; [exact He | exact Hef].
Defined.

(** A reset asked for and confirmed with two checkpoints in place, and an
    undo, which keeps the source image. *)
Lemma reset_is_two_phase_witness :
  history (handleResetRequest twoCheckpoints) = history twoCheckpoints /\
  history (handleConfirmReset (handleResetRequest twoCheckpoints)) = [] /\
  originalImage (after twoCheckpoints Undo) <> None.
Proof.
  destruct (reset_is_two_phase twoCheckpoints) as (Hrequest & Hconfirm & Honly).
  repeat apply conj.
  - exact (proj1 (proj2 (proj2 (proj2 Hrequest)))).
  - exact (proj1 (proj2 Hconfirm)).
  - apply (Honly keepImage Undo (after twoCheckpoints Undo));
      [reflexivity | discriminate | discriminate].
Defined.

(** One clockwise click on an 800 x 600 image. *)
Lemma rotation_by_quarter_turns_witness :
  ResultViewer.rotate [ResultViewer.cw] 0 = 90 /\
  ResultViewer.canvasSize (ResultViewer.rotate [ResultViewer.cw] 0) 800 600
  = (600, 800).
Proof.
  split; [reflexivity|].
  apply (rotation_by_quarter_turns [ResultViewer.cw] 800 600).
  cbn. discriminate.
Defined.

(** With two checkpoints in place, a generation sends the payload of the
    photo and a denoising the payload of the second checkpoint. *)
Lemma generate_sends_source_witness :
  sent (handleGenerate keepImage twoCheckpoints "C")
  = Some (Request.mk (Some "QUJD") "image/jpeg" "C" "1:1") /\
  sent (handleDenoise keepImage twoCheckpoints)
  = Some (Request.mk (Some "Qg") "image/png" denoisePrompt "1:1").
Proof.
  destruct (generate_sends_source keepImage twoCheckpoints photo eq_refl)
    as (Hgenerate & _ & _ & Hselected & _).
  split.
  - rewrite Hgenerate. reflexivity.
  - apply (Hselected (HistoryItem.mk "data:image/png;base64,Qg" "B" 1024 1024)
                     "image/png" "Qg"); reflexivity.
Defined.

(** * Further properties of the session *)

(** ** Redo and the pair undo, redo *)

(** X1. With a checkpoint after the cursor, redo moves the cursor forward
    by one, leaves the history as it is, sets the prompt, the target width
    and the target height to those of the checkpoint now selected and the
    state to [COMPLETE]. It does not touch the error message. *)
Theorem redo_restores_checkpoint (s : App) :
  consistent s ->
  historyIndex s < JS.length (history s) - 1 ->
  exists item s',
    JS.index (history s) (historyIndex s + 1) = Some item /\
    handleRedo s = Done s' /\
    historyIndex s' = historyIndex s + 1 /\
    history s' = history s /\
    prompt s' = HistoryItem.prompt item /\
    width s' = HistoryItem.width item /\
    height s' = HistoryItem.height item /\
    appState s' = COMPLETE /\
    error s' = error s /\
    originalImage s' = originalImage s.
Proof.
  intros Hs Hi. unfold consistent in Hs. unfold handleRedo, canRedo.
  destruct (Z.ltb_spec (historyIndex s) (JS.length (history s) - 1)); [|lia].
  cbn [negb].
  destruct (index_defined (history s) (historyIndex s + 1)) as [item Hitem];
    [lia|].
  rewrite Hitem. exists item. eexists. split; [reflexivity|].
  split; [reflexivity|]. simpl. repeat split.
Qed.

Lemma redo_restores_checkpoint_witness :
  exists item s',
    JS.index (history (after twoCheckpoints Undo)) 1 = Some item /\
    handleRedo (after twoCheckpoints Undo) = Done s' /\
    historyIndex s' = 1 /\
    prompt s' = "B" /\
    appState s' = COMPLETE.
Proof.
  assert (Hcursor : historyIndex (after twoCheckpoints Undo) = 0) by reflexivity.
  assert (Hlength : JS.length (history (after twoCheckpoints Undo)) = 2)
    by reflexivity.
  destruct (redo_restores_checkpoint (after twoCheckpoints Undo))
    as (item & s' & Hitem & Hredo & Hi & _ & Hp & _ & _ & Hstate & _).
  - unfold consistent. rewrite Hcursor, Hlength. lia.
  - rewrite Hcursor, Hlength. lia.
  - exists item, s'. rewrite Hcursor in Hitem, Hi.
    split; [exact Hitem|]. split; [exact Hredo|]. split; [exact Hi|].
    split; [|exact Hstate].
    rewrite Hp.
    assert (Hitem' : Some item
                     = Some (HistoryItem.mk "data:image/png;base64,Qg" "B" 1024 1024))
      by (rewrite <- Hitem; reflexivity).
    injection Hitem' as ->. reflexivity.
Defined.

(** X2. Undo followed by redo comes back to the same cursor on the same
    history; the prompt and the target size are then those of the selected
    checkpoint, whatever they were before, and the state is [COMPLETE]. *)
Theorem undo_then_redo (s : App) :
  consistent s ->
  0 <= historyIndex s ->
  exists item s1 s2,
    JS.index (history s) (historyIndex s) = Some item /\
    handleUndo s = Done s1 /\
    handleRedo s1 = Done s2 /\
    history s2 = history s /\
    historyIndex s2 = historyIndex s /\
    prompt s2 = HistoryItem.prompt item /\
    width s2 = HistoryItem.width item /\
    height s2 = HistoryItem.height item /\
    appState s2 = COMPLETE.
Proof.
  intros Hs Hi. unfold consistent in Hs.
  destruct (index_defined (history s) (historyIndex s)) as [item Hitem]; [lia|].
  exists item.
  assert (Hundo : exists s1, handleUndo s = Done s1 /\
                             history s1 = history s /\
                             historyIndex s1 = historyIndex s - 1).
  { unfold handleUndo, canUndo.
    destruct (Z.geb_spec (historyIndex s) 0); [|lia]. cbn [negb].
    destruct (Z.geb_spec (historyIndex s - 1) 0).
    - destruct (index_defined (history s) (historyIndex s - 1)) as [prev ->];
        [lia|].
      eexists. repeat split.
    - eexists. repeat split. }
  destruct Hundo as (s1 & Hundo & Hh1 & Hi1).
  exists s1. rewrite Hundo.
  unfold handleRedo, canRedo. rewrite Hh1, Hi1.
  destruct (Z.ltb_spec (historyIndex s - 1) (JS.length (history s) - 1)); [|lia].
  cbn [negb]. replace (historyIndex s - 1 + 1) with (historyIndex s) by lia.
  rewrite Hitem. eexists. split; [reflexivity|]. split; [reflexivity|].
  split; [reflexivity|]. simpl. repeat split. exact Hh1.
Qed.

Lemma undo_then_redo_witness :
  exists item s1 s2,
    JS.index (history twoCheckpoints) 1 = Some item /\
    handleUndo twoCheckpoints = Done s1 /\
    handleRedo s1 = Done s2 /\
    historyIndex s2 = 1 /\
    prompt twoCheckpoints = "" /\
    prompt s2 = HistoryItem.prompt item.
Proof.
  assert (Hcursor : historyIndex twoCheckpoints = 1) by reflexivity.
  assert (Hlength : JS.length (history twoCheckpoints) = 2) by reflexivity.
  destruct (undo_then_redo twoCheckpoints)
    as (item & s1 & s2 & Hitem & Hundo & Hredo & _ & Hi & Hp & _).
  - unfold consistent. rewrite Hcursor, Hlength. lia.
  - rewrite Hcursor. lia.
  - exists item, s1, s2. rewrite Hcursor in Hitem, Hi.
    split; [exact Hitem|]. split; [exact Hundo|]. split; [exact Hredo|].
    split; [exact Hi|]. split; [reflexivity | exact Hp].
Defined.

(** X3. Undo and redo never change the sequence of checkpoints; undo with
    the cursor below [0] and redo with the cursor at or past the last
    checkpoint change nothing at all. *)
Theorem cursor_moves_keep_history (s : App) :
  (forall s', handleUndo s = Done s' -> history s' = history s) /\
  (forall s', handleRedo s = Done s' -> history s' = history s) /\
  (historyIndex s < 0 <-> canUndo s = false) /\
  (JS.length (history s) - 1 <= historyIndex s <-> canRedo s = false) /\
  (canUndo s = false -> handleUndo s = Done s) /\
  (canRedo s = false -> handleRedo s = Done s).
Proof.
  split; [|split; [|split; [|split; [|split]]]].
  - intros s'. unfold handleUndo.
    destruct (negb (canUndo s)); [intros [= <-]; reflexivity|].
    destruct (historyIndex s - 1 >=? 0).
    + destruct (JS.index _ _); [|discriminate]. intros [= <-]. reflexivity.
    + intros [= <-]. reflexivity.
  - intros s'. unfold handleRedo.
    destruct (negb (canRedo s)); [intros [= <-]; reflexivity|].
    destruct (JS.index _ _); [|discriminate]. intros [= <-]. reflexivity.
  - unfold canUndo. destruct (Z.geb_spec (historyIndex s) 0); split;
      intros; try reflexivity; try (exfalso; lia); try lia; congruence.
  - unfold canRedo.
    destruct (Z.ltb_spec (historyIndex s) (JS.length (history s) - 1)); split;
      intros; try reflexivity; try (exfalso; lia); try lia; congruence.
  - intros H. unfold handleUndo. rewrite H. reflexivity.
  - intros H. unfold handleRedo. rewrite H. reflexivity.
Qed.

(** ** Checkpoints are never rewritten *)

(** X4. Apart from an upload, an accepted crop and a confirmed reset, no
    event changes or drops a checkpoint at or before the cursor. *)
Theorem checkpoints_up_to_cursor_kept
    (resizeImage : string -> Z -> Z -> option string)
    (s s' : App) (e : Event) (i : Z) :
  consistent s ->
  replacesSource e = false ->
  step resizeImage s e = Some s' ->
  0 <= i <= historyIndex s ->
  JS.index (history s') i = JS.index (history s) i.
Proof.
  intros Hs He Hstep Hi. unfold consistent in Hs.
  assert (Happend : forall item,
             JS.index (JS.push (JS.slice (history s) 0 (historyIndex s + 1)) item) i
             = JS.index (history s) i).
  { intros item.
    rewrite index_push_before by (rewrite length_slice_prefix; lia).
    apply index_slice_prefix. lia. }
  destruct e as [image|w h| | |c| | | |text|w|h|p reply|reply|reply|newImage| | ];
    try discriminate; revert Hstep; simpl;
    unfold handleGenerate, handleDenoise, handleAutoEnhance,
           handleApplyFilters, handleUndo, handleRedo;
    repeat match goal with
           | |- context [match ?x with _ => _ end] =>
               lazymatch x with
               | context [match _ with _ => _ end] => fail
               | _ => destruct x eqn:?
               end
           end;
    cbn [settle finished andThen editImageWithGemini];
    repeat match goal with
           | |- context [match ?x with _ => _ end] => destruct x eqn:?
           end;
    try discriminate;
    intros [= <-]; simpl; first [reflexivity | apply Happend].
Qed.

Lemma checkpoints_up_to_cursor_kept_witness :
  JS.index (history (after twoCheckpoints (Generate "C" (inlineReply "Qw")))) 1
  = JS.index (history twoCheckpoints) 1.
Proof.
  assert (Hcursor : historyIndex twoCheckpoints = 1) by reflexivity.
  assert (Hlength : JS.length (history twoCheckpoints) = 2) by reflexivity.
  apply (checkpoints_up_to_cursor_kept keepImage twoCheckpoints
           (after twoCheckpoints (Generate "C" (inlineReply "Qw")))
           (Generate "C" (inlineReply "Qw")) 1).
  - unfold consistent. rewrite Hcursor, Hlength. lia.
  - reflexivity.
  - reflexivity.
  - rewrite Hcursor. lia.
Defined.

(** ** A call that succeeds *)

(** X5. After a successful generation the new checkpoint carries the
    prompt that was submitted and the target size, the prompt field is not
    touched, the error is cleared and the state is [COMPLETE]. After a
    successful denoising or enhancement (of an image that is a base64 data
    URI) the checkpoint carries the fixed label of the operation, and the
    prompt field is overwritten with it. *)
Theorem successful_call_outcome
    (resizeImage : string -> Z -> Z -> option string)
    (s : App) (reply : Reply) (img : string) :
  succeeds resizeImage s reply img ->
  (forall currentPrompt,
      originalImage s <> None ->
      exists s',
        step resizeImage s (Generate currentPrompt reply) = Some s' /\
        JS.index (history s') (historyIndex s')
        = Some (HistoryItem.mk img currentPrompt (width s) (height s)) /\
        prompt s' = prompt s /\
        appState s' = COMPLETE /\ error s' = None /\
        width s' = width s /\ height s' = height s /\
        originalImage s' = originalImage s) /\
  (forall mime payload,
      viewsDataUri s mime payload ->
      (exists s',
          step resizeImage s (Denoise reply) = Some s' /\
          JS.index (history s') (historyIndex s')
          = Some (HistoryItem.mk img "Remove Noise (AI)" (width s) (height s)) /\
          prompt s' = "Remove Noise (AI)" /\
          appState s' = COMPLETE /\ error s' = None /\
          width s' = width s /\ height s' = height s /\
          originalImage s' = originalImage s) /\
      (exists s',
          step resizeImage s (AutoEnhance reply) = Some s' /\
          JS.index (history s') (historyIndex s')
          = Some (HistoryItem.mk img "Auto Enhance (AI)" (width s) (height s)) /\
          prompt s' = "Auto Enhance (AI)" /\
          appState s' = COMPLETE /\ error s' = None /\
          width s' = width s /\ height s' = height s /\
          originalImage s' = originalImage s)).
Proof.
  intros (r & Hr & Hz). split.
  - intros p. simpl. unfold handleGenerate.
    destruct (originalImage s) eqn:Ho; [|congruence]. intros _.
    cbn [settle andThen editImageWithGemini]. rewrite Hr, Hz.
    eexists. split; [reflexivity|]. simpl.
    split; [apply index_push_last|]. rewrite Ho. repeat split.
  - intros mime payload Hview. split.
    + destruct (handleDenoise_calls resizeImage s mime payload Hview)
        as (k & Hcall & Hok & _).
      simpl. rewrite Hcall. cbn [settle andThen editImageWithGemini].
      rewrite Hr, (Hok r img Hz).
      eexists. split; [reflexivity|]. simpl.
      split; [apply index_push_last|]. repeat split.
    + destruct (handleAutoEnhance_calls resizeImage s mime payload Hview)
        as (k & Hcall & Hok & _).
      simpl. rewrite Hcall. cbn [settle andThen editImageWithGemini].
      rewrite Hr, (Hok r img Hz).
      eexists. split; [reflexivity|]. simpl.
      split; [apply index_push_last|]. repeat split.
Qed.

(** With two checkpoints in place and an empty prompt field: a generation
    leaves the field empty, a denoising and an enhancement write their
    label into it. *)
Lemma successful_call_outcome_witness :
  exists generated denoised enhanced,
    prompt twoCheckpoints = "" /\
    step keepImage twoCheckpoints (Generate "C" (inlineReply "Qw")) = Some generated /\
    prompt generated = "" /\
    step keepImage twoCheckpoints (Denoise (inlineReply "Qw")) = Some denoised /\
    prompt denoised = "Remove Noise (AI)" /\
    step keepImage twoCheckpoints (AutoEnhance (inlineReply "Qw")) = Some enhanced /\
    prompt enhanced = "Auto Enhance (AI)" /\
    JS.index (history enhanced) (historyIndex enhanced)
    = Some (HistoryItem.mk "data:image/png;base64,Qw" "Auto Enhance (AI)" 1024 1024) /\
    appState enhanced = COMPLETE.
Proof.
  assert (Hview : viewsDataUri twoCheckpoints "image/png" "Qg").
  { exists (Some "data:image/png;base64,Qg"), "data:image/png;base64,Qg".
    split; [reflexivity|]. split; reflexivity. }
  destruct (successful_call_outcome keepImage twoCheckpoints (inlineReply "Qw")
              "data:image/png;base64,Qw") as (Hgenerate & Hcall).
  { exists "Qw". split; reflexivity. }
  destruct (Hgenerate "C") as (generated & Hg & _ & Hgp & _); [discriminate|].
  destruct (Hcall "image/png" "Qg" Hview)
    as ((denoised & Hd & _ & Hdp & _) & (enhanced & He & Hei & Hep & Hes & _)).
  exists generated, denoised, enhanced.
  split; [reflexivity|].
  split; [exact Hg|]. split; [rewrite Hgp; reflexivity|].
  split; [exact Hd|]. split; [exact Hdp|].
  split; [exact He|]. split; [exact Hep|].
  split; [exact Hei | exact Hes].
Defined.

(** ** A source that is not a base64 data URI *)

(** X6. When the image a denoising or an enhancement starts from is not a
    base64 data URI, the handler fails on its own with the message
    "Invalid image source data.": the gateway is not called and the
    history stays as it is. A generation makes no such check: when the
    source has no comma, the gateway is called without image data. *)
Theorem source_not_a_data_uri
    (resizeImage : string -> Z -> Z -> option string)
    (s : App) (viewed : option string) (sourceImage : string) :
  generatedImage s = Some viewed ->
  JS.or viewed (option_map originalData (originalImage s)) = Some sourceImage ->
  JS.truthy (Some sourceImage) = true ->
  JS.matchDataUri sourceImage = None ->
  (exists s',
      handleDenoise resizeImage s = Done s' /\
      handleAutoEnhance resizeImage s = Done s' /\
      appState s' = ERROR /\
      error s' = Some "Invalid image source data." /\
      history s' = history s /\
      historyIndex s' = historyIndex s) /\
  sent (handleDenoise resizeImage s) = None /\
  sent (handleAutoEnhance resizeImage s) = None /\
  (forall original currentPrompt,
      originalImage s = Some original ->
      without "," (originalData original) = true ->
      exists req,
        sent (handleGenerate resizeImage s currentPrompt) = Some req /\
        Request.data req = None /\
        Request.mimeType req = mimeType original).
Proof.
  intros Hg Hor Ht Hm.
  assert (Hd : handleDenoise resizeImage s
               = Done (s |> setAppState PROCESSING |> setError None
                         |> setError (Some "Invalid image source data.")
                         |> setAppState ERROR)).
  { unfold handleDenoise. rewrite Hg, Hor, Ht. cbn [negb]. rewrite Hm. reflexivity. }
  assert (He : handleAutoEnhance resizeImage s
               = Done (s |> setAppState PROCESSING |> setError None
                         |> setError (Some "Invalid image source data.")
                         |> setAppState ERROR)).
  { unfold handleAutoEnhance. rewrite Hg, Hor, Ht. cbn [negb]. rewrite Hm.
    reflexivity. }
  split; [|split; [|split]].
  - eexists. split; [exact Hd|]. split; [exact He|]. repeat split.
  - rewrite Hd. reflexivity.
  - rewrite He. reflexivity.
  - intros original p Ho Hc. unfold handleGenerate. rewrite Ho.
    rewrite (split_whole _ _ Hc). eexists. split; [reflexivity|].
    split; reflexivity.
Qed.

Lemma source_not_a_data_uri_witness :
  let s := handleImageSelected initial
             (mkProcessedImage "blob:http://localhost/1" "image/png") in
  sent (handleDenoise keepImage s) = None /\
  exists s',
    handleDenoise keepImage s = Done s' /\
    appState s' = ERROR /\
    error s' = Some "Invalid image source data.".
Proof.
  intros s.
  destruct (source_not_a_data_uri keepImage s None "blob:http://localhost/1"
              eq_refl eq_refl eq_refl eq_refl)
    as ((s' & Hd & _ & Hstate & Herror & _) & Hsent & _).
  split; [exact Hsent|]. exists s'.
  split; [exact Hd|]. split; [exact Hstate | exact Herror].
Defined.

(** ** What the gateway wrapper returns *)

Lemma firstInlineData_found (parts : list Part.t) (d : string) :
  firstInlineData parts = Some d <->
  exists before part rest,
    parts = (before ++ part :: rest)%list /\
    noInlineData before /\
    Part.inlineData part = Some d /\
    d <> "".
Proof.
  unfold noInlineData. induction parts as [|q parts IH]; simpl.
  - split; [discriminate|].
    intros (before & part & rest & Heq & _).
    destruct before; discriminate.
  - destruct (JS.truthy (Part.inlineData q)) eqn:Hq.
    + split.
      * intros Hd. exists [], q, parts. repeat split; [constructor|exact Hd|].
        intros ->. rewrite Hd in Hq. discriminate.
      * intros (before & part & rest & Heq & Hnone & Hd & Hne).
        destruct before as [|b before]; simpl in Heq; injection Heq as <- ->.
        -- exact Hd.
        -- inversion Hnone; congruence.
    + rewrite IH. split.
      * intros (before & part & rest & -> & Hnone & Hd & Hne).
        exists (q :: before), part, rest. repeat split; try assumption.
        constructor; assumption.
      * intros (before & part & rest & Heq & Hnone & Hd & Hne).
        destruct before as [|b before]; simpl in Heq; injection Heq as <- ->.
        -- rewrite Hd in Hq. simpl in Hq.
           destruct (String.eqb_spec d ""); [contradiction|discriminate].
        -- exists before, part, rest. inversion Hnone; subst.
           repeat split; assumption.
Qed.

Lemma firstInlineData_none (parts : list Part.t) :
  firstInlineData parts = None <-> noInlineData parts.
Proof.
  unfold noInlineData. induction parts as [|q parts IH]; simpl.
  - split; [constructor|reflexivity].
  - destruct (JS.truthy (Part.inlineData q)) eqn:Hq.
    + split.
      * intros Hd. rewrite Hd in Hq. discriminate.
      * intros Hnone. inversion Hnone; congruence.
    + rewrite IH. split.
      * intros Hnone. constructor; assumption.
      * intros Hnone. inversion Hnone; assumption.
Qed.

(** X7. [editImageWithGemini] returns [d] exactly when the first candidate
    of the response has parts, one of them carries the non-empty inline
    data [d] and no earlier part of that candidate has inline data; the
    text it returns is never empty. In every other case it throws: the
    error of the rejected call itself; the [TypeError] of reading the
    parts of a first candidate that has none; or "No image data found in
    the response." when the candidates are missing or empty, or when no
    part of the first candidate has inline data. Later candidates are
    never read. *)
Theorem gateway_returns_first_inline_data (reply : Reply) :
  (forall d,
      readResponse reply = Ok d <->
      exists before part rest others,
        reply = Response (Some (Candidate.Parts (before ++ part :: rest)%list
                                  :: others)) /\
        noInlineData before /\
        Part.inlineData part = Some d /\
        d <> "") /\
  (forall message,
      readResponse reply = Throw message <->
      reply = Rejected message \/
      (exists typeError others,
          reply = Response (Some (Candidate.NoParts typeError :: others)) /\
          message = Some typeError) \/
      (message = Some noImageData /\
       (reply = Response None \/
        reply = Response (Some []) \/
        exists parts others,
          reply = Response (Some (Candidate.Parts parts :: others)) /\
          noInlineData parts))) /\
  (forall first others others',
      readResponse (Response (Some (first :: others)))
      = readResponse (Response (Some (first :: others')))) /\
  (forall base64Image mimeType prompt aspectRatio,
      settle (editImageWithGemini base64Image mimeType prompt aspectRatio) reply
      = Some (readResponse reply)).
Proof.
  split; [|split; [|split]].
  - intros d. split.
    + destruct reply as [m|[[|[parts|typeError] others]|]]; simpl; try discriminate.
      destruct (firstInlineData parts) eqn:Hf; [|discriminate].
      intros [= ->]. apply firstInlineData_found in Hf.
      destruct Hf as (before & part & rest & -> & Hnone & Hd & Hne).
      exists before, part, rest, others. repeat split; assumption.
    + intros (before & part & rest & others & -> & Hnone & Hd & Hne). simpl.
      assert (Hf : firstInlineData (before ++ part :: rest) = Some d)
        by (apply firstInlineData_found; exists before, part, rest;
            repeat split; assumption).
      rewrite Hf. reflexivity.
  - intros message. split.
    + destruct reply as [m|[[|[parts|typeError] others]|]]; simpl.
      * intros [= ->]. left. reflexivity.
      * intros [= <-]. right. right. split; [reflexivity|]. right. left. reflexivity.
      * destruct (firstInlineData parts) eqn:Hf; [discriminate|].
        intros [= <-]. right. right. split; [reflexivity|]. right. right.
        exists parts, others. split; [reflexivity|].
        apply firstInlineData_none, Hf.
      * intros [= <-]. right. left. exists typeError, others.
        split; reflexivity.
      * intros [= <-]. right. right. split; [reflexivity|]. left. reflexivity.
    + intros [-> | [(typeError & others & -> & ->)
                   | (-> & [-> | [-> | (parts & others & -> & Hnone)]])]];
        try reflexivity.
      simpl. apply firstInlineData_none in Hnone. rewrite Hnone. reflexivity.
  - intros [parts|typeError] others others'; reflexivity.
  - reflexivity.
Qed.

(** ** The aspect-ratio hint is a preset *)

Lemma eqb_zero (x : float) :
  (x =? 0)%float = true -> exists s, Prim2SF x = S754_zero s.
Proof.
  rewrite eqb_spec. change (Prim2SF 0) with (S754_zero false).
  destruct (Prim2SF x) as [s|s| |s m e]; simpl; try discriminate; [eauto| |];
    destruct s; discriminate.
Qed.

(** A quotient by zero is an infinity or NaN. *)
Lemma quotient_by_zero (width height : float) :
  (height =? 0)%float = true ->
  Prim2SF (width / height) = S754_nan \/
  exists s, Prim2SF (width / height) = S754_infinity s.
Proof.
  intros Hh. destruct (eqb_zero height Hh) as [s Eh].
  rewrite div_spec, Eh.
  destruct (Prim2SF width) as [sw|sw| |sw mw ew]; simpl; eauto.
Qed.

(** No preset is closer than another to an infinity or to NaN. *)
Lemma closer_not_finite (t : float) (curr prev : Ratio.t) :
  Prim2SF t = S754_nan \/ (exists s, Prim2SF t = S754_infinity s) ->
  closer t curr prev = false.
Proof.
  intros Ht. unfold closer, distance.
  rewrite ltb_spec, !abs_spec, !sub_spec.
  destruct Ht as [-> | [s ->]];
    destruct (Prim2SF (Ratio.value curr)) as [sc|sc| |sc mc ec];
    destruct (Prim2SF (Ratio.value prev)) as [sp|sp| |sp mp ep];
    try destruct s; try destruct sc; try destruct sp; reflexivity.
Qed.

(** X23. The hint is always one of the five presets, whatever the numbers
    it is computed from. A target with a zero height gets 1:1: the
    quotient is then an infinity or NaN, to which no preset is closer than
    the first. *)
Theorem hint_is_a_preset (width height : float) :
  In (getClosestAspectRatio width height) ["1:1"; "3:4"; "4:3"; "9:16"; "16:9"] /\
  ((height =? 0)%float = true -> getClosestAspectRatio width height = "1:1").
Proof.
  split.
  - unfold getClosestAspectRatio, ratios, JS.reduce. cbn [fold_left].
    repeat match goal with
           | |- context [if ?c then _ else _] =>
               lazymatch c with
               | context [if _ then _ else _] => fail
               | _ => destruct c
               end
           end; simpl; tauto.
  - intros Hh. pose proof (quotient_by_zero width height Hh) as Ht.
    unfold getClosestAspectRatio, ratios, JS.reduce. cbn [fold_left].
    rewrite !(closer_not_finite _ _ _ Ht). reflexivity.
Qed.

(** ** Building and parsing data URIs *)

Lemma substring_whole (s : string) : substring 0 (String.length s) s = s.
Proof.
  induction s as [|c s IH]; simpl; [reflexivity|]. rewrite IH. reflexivity.
Qed.

Lemma substring_after (p b : string) :
  substring (String.length p) (String.length (p ++ b) - String.length p) (p ++ b)
  = b.
Proof.
  induction p as [|c p IH]; simpl.
  - rewrite Nat.sub_0_r. apply substring_whole.
  - exact IH.
Qed.

Lemma prefix_split (p s : string) :
  String.prefix p s = true ->
  s = p ++ substring (String.length p) (String.length s - String.length p) s.
Proof.
  revert s. induction p as [|a p IH]; intros s; simpl.
  - intros _. rewrite Nat.sub_0_r, substring_whole. reflexivity.
  - destruct s as [|b s]; simpl; [discriminate|].
    destruct (ascii_dec a b) as [->|]; [|discriminate].
    intros H. f_equal. apply IH, H.
Qed.

Lemma prefix_app (p b : string) : String.prefix p (p ++ b) = true.
Proof.
  induction p as [|a p IH]; simpl; [destruct b; reflexivity|].
  destruct (ascii_dec a a); [exact IH|contradiction].
Qed.

Lemma cut_unfold (sep s : string) :
  JS.cut sep s =
  if String.prefix sep s
  then Some (EmptyString, substring (String.length sep)
                                    (String.length s - String.length sep) s)
  else match s with
       | EmptyString => None
       | String c s' =>
           match JS.cut sep s' with
           | Some (a, b) => Some (String c a, b)
           | None => None
           end
       end.
Proof.
  destruct s; reflexivity.
Qed.

Lemma cut_sound (sep s a b : string) :
  JS.cut sep s = Some (a, b) -> s = a ++ sep ++ b.
Proof.
  revert a. induction s as [|c s IH]; intros a; rewrite cut_unfold.
  - destruct (String.prefix sep "") eqn:Hp; [|discriminate].
    intros [= <- <-]. apply (prefix_split sep ""), Hp.
  - destruct (String.prefix sep (String c s)) eqn:Hp.
    + intros [= <- <-]. apply (prefix_split sep (String c s)), Hp.
    + destruct (JS.cut sep s) as [[a' b']|] eqn:Hc; [|discriminate].
      intros [= <- <-]. change (String c s = String c (a' ++ sep ++ b')).
      f_equal. apply IH. reflexivity.
Qed.

Lemma cut_first (c : ascii) (sep a b : string) :
  without c a = true ->
  JS.cut (String c sep) (a ++ String c sep ++ b) = Some (a, b).
Proof.
  intros Ha. induction a as [|x a IH]; rewrite cut_unfold.
  - change ("" ++ String c sep ++ b) with (String c sep ++ b).
    rewrite prefix_app, substring_after. reflexivity.
  - simpl in Ha. apply andb_true_iff in Ha as [Hx Ha].
    apply negb_true_iff in Hx.
    change (String x a ++ String c sep ++ b)
      with (String x (a ++ String c sep ++ b)).
    assert (Hp : String.prefix (String c sep) (String x (a ++ String c sep ++ b))
                 = false).
    { cbn [String.prefix]. destruct (ascii_dec c x) as [->|]; [|reflexivity].
      rewrite Ascii.eqb_refl in Hx. discriminate. }
    rewrite Hp, (IH Ha). reflexivity.
Qed.

Lemma singleLine_app (a b : string) :
  JS.singleLine (a ++ b) = JS.singleLine a && JS.singleLine b.
Proof.
  induction a as [|c a IH]; simpl; [reflexivity|].
  rewrite IH, andb_assoc. reflexivity.
Qed.

Lemma matchDataUri_sound (s mime payload : string) :
  JS.matchDataUri s = Some (mime, payload) ->
  s = "data:" ++ mime ++ ";base64," ++ payload.
Proof.
  unfold JS.matchDataUri.
  destruct (String.prefix "data:" s) eqn:Hp; [|discriminate].
  destruct (JS.singleLine _); [|discriminate].
  intros Hc. apply cut_sound in Hc.
  rewrite (prefix_split _ _ Hp) at 1. change (String.length "data:") with 5%nat.
  rewrite Hc. reflexivity.
Qed.

Lemma matchDataUri_built (mime payload : string) :
  without ";" mime = true ->
  JS.singleLine mime = true ->
  JS.singleLine payload = true ->
  JS.matchDataUri ("data:" ++ mime ++ ";base64," ++ payload) = Some (mime, payload).
Proof.
  intros Hm Hlm Hlp. unfold JS.matchDataUri.
  rewrite prefix_app.
  change 5%nat with (String.length "data:").
  rewrite substring_after.
  rewrite !singleLine_app, Hlm, Hlp. cbn [JS.singleLine JS.lineTerminator andb].
  change (JS.singleLine ";base64,") with true. cbn [andb].
  apply (cut_first ";" "base64," mime payload Hm).
Qed.

(** X9. A data URI built from a mime type and a base64 payload, both on
    one line and the mime type without a semicolon, is parsed back by
    [handleDenoise] into the same mime type and payload; and whenever the
    parse succeeds, its two groups put back between [data:] and
    [;base64,] give the text that was parsed. *)
Theorem dataUri_round_trip (mime payload : string) :
  without ";" mime = true ->
  JS.singleLine mime = true ->
  JS.singleLine payload = true ->
  JS.matchDataUri ("data:" ++ mime ++ ";base64," ++ payload) = Some (mime, payload) /\
  (forall s m p,
      JS.matchDataUri s = Some (m, p) -> s = "data:" ++ m ++ ";base64," ++ p).
Proof.
  intros Hm Hlm Hlp. split.
  - apply matchDataUri_built; assumption.
  - apply matchDataUri_sound.
Qed.

Lemma dataUri_round_trip_witness :
  JS.matchDataUri "data:image/jpeg;base64,QUJD" = Some ("image/jpeg", "QUJD").
Proof.
  exact (proj1 (dataUri_round_trip "image/jpeg" "QUJD" eq_refl eq_refl eq_refl)).
Defined.

Lemma index_push_selected {A : Type} (l : list A) (x : A) :
  (JS.length l + 1 - 1 >=? 0) = true /\
  JS.index (JS.push l x) (JS.length l + 1 - 1) = Some x.
Proof.
  pose proof (length_nonneg l). split.
  - destruct (Z.geb_spec (JS.length l + 1 - 1) 0); [reflexivity|lia].
  - rewrite <- (length_push l x). apply index_push_last.
Qed.

(** X10. When the resampling of a successful generation yields a PNG data
    URI, as both outcomes of [resizeImage] do, the next denoising or
    enhancement sends the gateway that PNG payload with the mime type
    [image/png], whatever the type of the uploaded source. *)
Theorem call_after_generation_sends_result
    (resizeImage : string -> Z -> Z -> option string)
    (s : App) (currentPrompt : string) (reply : Reply) (payload : string) :
  originalImage s <> None ->
  succeeds resizeImage s reply (pngDataUri payload) ->
  JS.singleLine payload = true ->
  exists s',
    step resizeImage s (Generate currentPrompt reply) = Some s' /\
    let aspectRatio :=
      getClosestAspectRatio (JS.number (width s)) (JS.number (height s)) in
    sent (handleDenoise resizeImage s')
    = Some (Request.mk (Some payload) "image/png" denoisePrompt aspectRatio) /\
    sent (handleAutoEnhance resizeImage s')
    = Some (Request.mk (Some payload) "image/png" enhancePrompt aspectRatio).
Proof.
  intros Ho (r & Hr & Hz) Hl. simpl. unfold handleGenerate.
  destruct (originalImage s) eqn:Hoi; [|congruence].
  cbn [settle andThen editImageWithGemini]. rewrite Hr, Hz.
  eexists. split; [reflexivity|].
  assert (Hm : JS.matchDataUri (pngDataUri payload) = Some ("image/png", payload)).
  { apply (matchDataUri_built "image/png" payload); [reflexivity|reflexivity|exact Hl]. }
  pose proof (matchDataUri_truthy _ _ Hm) as Ht.
  unfold handleDenoise, handleAutoEnhance, generatedImage.
  cbn [historyIndex history width height setAppState setHistoryIndex setHistory
       setError originalImage].
  rewrite length_push.
  match goal with
  | |- context [JS.push ?l ?x] =>
      destruct (index_push_selected l x) as [Hge Hsel]
  end.
  rewrite Hge, Hsel. cbn [HistoryItem.image].
  unfold JS.or. rewrite Ht. cbv beta iota zeta. rewrite Ht, Hm.
  split; reflexivity.
Qed.

Lemma call_after_generation_sends_result_witness :
  exists s',
    step keepImage (handleImageSelected initial photo)
         (Generate "A" (inlineReply "Qw")) = Some s' /\
    mimeType photo = "image/jpeg" /\
    sent (handleDenoise keepImage s')
    = Some (Request.mk (Some "Qw") "image/png" denoisePrompt "1:1").
Proof.
  destruct (call_after_generation_sends_result keepImage
              (handleImageSelected initial photo) "A" (inlineReply "Qw") "Qw")
    as (s' & Hstep & Hdenoise & _).
  - discriminate.
  - exists "Qw". split; reflexivity.
  - reflexivity.
  - exists s'. split; [exact Hstep|]. split; [reflexivity | exact Hdenoise].
Defined.

(** ** The mime type that goes with the source *)

(** X11. After an upload a generation sends the mime type given with the
    uploaded file, and after an accepted crop it sends [image/png]
    whatever the cropped data are; a denoising or an enhancement sends
    instead the mime type written in the data URI of the source. *)
Theorem mime_type_sent_with_source
    (resizeImage : string -> Z -> Z -> option string)
    (s : App) (image : ProcessedImage) (croppedBase64 currentPrompt : string) :
  let uploaded := handleImageSelected s image in
  let cropped := handleCroppedImageSelected s croppedBase64 in
  (exists req,
      sent (handleGenerate resizeImage uploaded currentPrompt) = Some req /\
      Request.mimeType req = mimeType image /\
      Request.data req = nth_error (JS.split "," (originalData image)) 1) /\
  (exists req,
      sent (handleGenerate resizeImage cropped currentPrompt) = Some req /\
      Request.mimeType req = "image/png" /\
      Request.data req = nth_error (JS.split "," croppedBase64) 1) /\
  (forall mime payload,
      JS.matchDataUri (originalData image) = Some (mime, payload) ->
      exists req,
        sent (handleDenoise resizeImage uploaded) = Some req /\
        Request.mimeType req = mime /\ Request.data req = Some payload) /\
  (forall mime payload,
      JS.matchDataUri croppedBase64 = Some (mime, payload) ->
      exists req,
        sent (handleDenoise resizeImage cropped) = Some req /\
        Request.mimeType req = mime /\ Request.data req = Some payload).
Proof.
  intros uploaded cropped. split; [|split; [|split]].
  - eexists. split; [reflexivity|]. split; reflexivity.
  - eexists. split; [reflexivity|]. split; reflexivity.
  - intros mime payload Hm. pose proof (matchDataUri_truthy _ _ Hm) as Ht.
    unfold handleDenoise, generatedImage, uploaded, handleImageSelected.
    cbn [historyIndex history originalImage setAppState setError setPrompt
         setHistoryIndex setHistory setOriginalImage Z.geb Z.compare option_map].
    unfold JS.or. change (JS.truthy None) with false. cbv beta iota zeta.
    rewrite Ht, Hm. eexists. split; [reflexivity|]. split; reflexivity.
  - intros mime payload Hm. pose proof (matchDataUri_truthy _ _ Hm) as Ht.
    unfold handleDenoise, generatedImage, cropped, handleCroppedImageSelected.
    cbn [historyIndex history originalImage setAppState setError setShowCropper
         setHistoryIndex setHistory setOriginalImage Z.geb Z.compare option_map
         originalData].
    unfold JS.or. change (JS.truthy None) with false. cbv beta iota zeta.
    rewrite Ht, Hm. eexists. split; [reflexivity|]. split; reflexivity.
Qed.

(** ** Sizes stay positive *)








(** * The prompt editor *)

Lemma slice_without_last {A : Type} (l : list A) (x : A) :
  JS.slice (l ++ [x]) 0 (-1) = l.
Proof.
  unfold JS.slice, JS.relative, JS.length. rewrite length_app. simpl.
  destruct (Z.ltb_spec 0 0); [lia|].
  rewrite Z.min_l by lia. rewrite Z.max_l by lia. simpl skipn.
  replace (Z.to_nat (Z.of_nat (List.length l + 1) + -1 - 0)) with (List.length l)
    by lia.
  rewrite firstn_app, Nat.sub_diag, firstn_all. simpl. apply app_nil_r.
Qed.

Lemma slice_without_first {A : Type} (l : list A) (x : A) :
  JS.slice (x :: l) 1 (JS.length (x :: l)) = l.
Proof.
  unfold JS.slice, JS.relative, JS.length. simpl List.length.
  destruct (Z.ltb_spec 1 0); [lia|].
  destruct (Z.ltb_spec (Z.of_nat (S (List.length l))) 0); [lia|].
  rewrite Z.min_l by lia. rewrite Z.min_l by lia.
  change (Z.to_nat 1) with 1%nat. simpl skipn.
  replace (Z.to_nat (Z.of_nat (S (List.length l)) - 1)) with (List.length l) by lia.
  apply firstn_all.
Qed.

Lemma restore_current (s s' : App) :
  history s' = history s -> historyIndex s' = historyIndex s ->
  appState s' = appState s -> originalImage s' = originalImage s ->
  showCropper s' = showCropper s ->
  showResetConfirmation s' = showResetConfirmation s -> error s' = error s ->
  PromptEditor.restore (PromptEditor.current s) s' = s.
Proof.
  destruct s, s'. simpl. intros -> -> -> -> -> -> ->. reflexivity.
Qed.

Lemma undo_of_saved (s : App) (older newer : list PromptEditor.Entry.t)
    (previous : PromptEditor.Entry.t) (typing : bool) :
  PromptEditor.handleLocalUndo
    s (PromptEditor.mkEditor (older ++ [previous]) newer typing)
  = (PromptEditor.restore previous s,
     PromptEditor.mkEditor older (PromptEditor.current s :: newer) typing).
Proof.
  unfold PromptEditor.handleLocalUndo. cbn [PromptEditor.past PromptEditor.future
                                           PromptEditor.typingTimeoutRef].
  pose proof (length_nonneg older) as Hl.
  change (older ++ [previous])%list with (JS.push older previous).
  rewrite index_push_last. rewrite length_push.
  destruct (Z.eqb_spec (JS.length older + 1) 0); [lia|].
  unfold JS.push. rewrite slice_without_last. reflexivity.
Qed.

Lemma redo_of_undone (s : App) (older newer : list PromptEditor.Entry.t)
    (next : PromptEditor.Entry.t) (typing : bool) :
  PromptEditor.handleLocalRedo
    s (PromptEditor.mkEditor older (next :: newer) typing)
  = (PromptEditor.restore next s,
     PromptEditor.mkEditor (older ++ [PromptEditor.current s]) newer typing).
Proof.
  unfold PromptEditor.handleLocalRedo. cbn [PromptEditor.past PromptEditor.future
                                           PromptEditor.typingTimeoutRef].
  rewrite slice_without_first.
  pose proof (length_nonneg newer) as Hl.
  assert (Hlen : JS.length (next :: newer) = JS.length newer + 1)
    by (unfold JS.length; simpl List.length; lia).
  rewrite Hlen. destruct (Z.eqb_spec (JS.length newer + 1) 0); [lia|].
  reflexivity.
Qed.

Lemma current_restore (e : PromptEditor.Entry.t) (s : App) :
  PromptEditor.current (PromptEditor.restore e s) = e.
Proof.
  destruct e. reflexivity.
Qed.

(** X13. With a non-empty past, a local undo followed by a local redo
    gives back the session and the editor as they were; with a non-empty
    future, so does a local redo followed by a local undo. With an empty
    past the undo does nothing, and with an empty future the redo does
    nothing. *)
Theorem local_undo_redo_round_trip (s : App) (ed : PromptEditor.Editor) :
  (PromptEditor.past ed <> [] ->
   let (s1, ed1) := PromptEditor.handleLocalUndo s ed in
   PromptEditor.handleLocalRedo s1 ed1 = (s, ed)) /\
  (PromptEditor.future ed <> [] ->
   let (s1, ed1) := PromptEditor.handleLocalRedo s ed in
   PromptEditor.handleLocalUndo s1 ed1 = (s, ed)) /\
  (PromptEditor.past ed = [] -> PromptEditor.handleLocalUndo s ed = (s, ed)) /\
  (PromptEditor.future ed = [] -> PromptEditor.handleLocalRedo s ed = (s, ed)).
Proof.
  destruct ed as [pst fut typing]. cbn [PromptEditor.past PromptEditor.future].
  split; [|split; [|split]].
  - intros Hne. destruct (exists_last Hne) as (older & previous & ->).
    rewrite undo_of_saved, redo_of_undone, current_restore.
    f_equal. apply restore_current; reflexivity.
  - intros Hne. destruct fut as [|next newer]; [contradiction|].
    rewrite redo_of_undone, undo_of_saved, current_restore.
    f_equal. apply restore_current; reflexivity.
  - intros ->. reflexivity.
  - intros ->. reflexivity.
Qed.

Lemma debounce_pending (s : App) (ed : PromptEditor.Editor) :
  PromptEditor.typingTimeoutRef ed = true -> PromptEditor.debounce s ed = ed.
Proof.
  destruct ed as [pst fut typing]. simpl. intros ->. reflexivity.
Qed.

Lemma inputs_cons (i : PromptEditor.Input) (burst : list PromptEditor.Input)
    (w : App * PromptEditor.Editor) :
  PromptEditor.inputs (i :: burst) w
  = PromptEditor.inputs burst (PromptEditor.input i w).
Proof. reflexivity. Qed.

Lemma inputs_pending (burst : list PromptEditor.Input)
    (s : App) (ed : PromptEditor.Editor) :
  forallb debounced burst = true ->
  PromptEditor.typingTimeoutRef ed = true ->
  snd (PromptEditor.inputs burst (s, ed)) = ed.
Proof.
  revert s. induction burst as [|i burst IH]; intros s Hall Ht; [reflexivity|].
  simpl in Hall. apply andb_true_iff in Hall as [Hi Hall].
  rewrite inputs_cons.
  destruct i; try discriminate; cbn [PromptEditor.input];
    unfold PromptEditor.handlePromptChange, PromptEditor.widthInput,
           PromptEditor.heightInput, PromptEditor.handleDimensionInput;
    rewrite (debounce_pending _ _ Ht); apply IH; assumption.
Qed.

Lemma input_keeps_session (i : PromptEditor.Input)
    (s : App) (ed : PromptEditor.Editor) :
  let s' := fst (PromptEditor.input i (s, ed)) in
  history s' = history s /\ historyIndex s' = historyIndex s /\
  appState s' = appState s /\ originalImage s' = originalImage s /\
  showCropper s' = showCropper s /\
  showResetConfirmation s' = showResetConfirmation s /\ error s' = error s.
Proof.
  destruct i as [v|parsed|parsed|p|ratio| | | ]; cbn [PromptEditor.input];
    unfold PromptEditor.handlePromptChange, PromptEditor.widthInput,
           PromptEditor.heightInput, PromptEditor.handleDimensionInput,
           PromptEditor.handleQuickAction, PromptEditor.handleAspectRatioClick,
           PromptEditor.handleLocalUndo, PromptEditor.handleLocalRedo.
  5: { destruct (ratio =? 1)%float; [repeat split|].
       destruct (1 <? ratio)%float; destruct (JS.round _); repeat split. }
  all: repeat match goal with
              | |- context [match ?x with _ => _ end] => destruct x
              end;
    repeat split.
Qed.

Lemma inputs_keep_session (burst : list PromptEditor.Input)
    (s : App) (ed : PromptEditor.Editor) :
  let s' := fst (PromptEditor.inputs burst (s, ed)) in
  history s' = history s /\ historyIndex s' = historyIndex s /\
  appState s' = appState s /\ originalImage s' = originalImage s /\
  showCropper s' = showCropper s /\
  showResetConfirmation s' = showResetConfirmation s /\ error s' = error s.
Proof.
  revert s ed. induction burst as [|i burst IH]; intros s ed; [repeat split|].
  rewrite inputs_cons.
  pose proof (input_keeps_session i s ed) as H1. cbv zeta in H1.
  destruct (PromptEditor.input i (s, ed)) as [s1 ed1].
  specialize (IH s1 ed1). cbv zeta in IH. cbv zeta. cbn [fst] in H1.
  destruct H1 as (E1 & E2 & E3 & E4 & E5 & E6 & E7).
  rewrite <- E1, <- E2, <- E3, <- E4, <- E5, <- E6, <- E7. exact IH.
Qed.

(** X14. A burst of inputs in the prompt or size fields, started while no
    timer is pending, saves one entry: the prompt and size before the
    burst. A local undo after the burst restores them and offers the
    result of the burst for redo. Inputs made while the timer is pending
    leave the editor's history as it is. *)
Theorem burst_saves_one_entry
    (first : PromptEditor.Input) (burst : list PromptEditor.Input)
    (s : App) (ed : PromptEditor.Editor) :
  forallb debounced (first :: burst) = true ->
  let (s', ed') := PromptEditor.inputs (first :: burst) (s, ed) in
  (PromptEditor.typingTimeoutRef ed = false ->
   ed' = PromptEditor.mkEditor (PromptEditor.past ed ++ [PromptEditor.current s])
                               [] true /\
   PromptEditor.handleLocalUndo s' ed'
   = (s, PromptEditor.mkEditor (PromptEditor.past ed)
                               [PromptEditor.current s'] true)) /\
  (PromptEditor.typingTimeoutRef ed = true -> ed' = ed).
Proof.
  intros Hall.
  destruct (PromptEditor.inputs (first :: burst) (s, ed)) as [s' ed'] eqn:Hrun.
  assert (Hs' : s' = fst (PromptEditor.inputs (first :: burst) (s, ed)))
    by (rewrite Hrun; reflexivity).
  assert (Hed' : ed' = snd (PromptEditor.inputs (first :: burst) (s, ed)))
    by (rewrite Hrun; reflexivity).
  split.
  - intros Hidle.
    assert (Hed : ed' = PromptEditor.mkEditor
                          (PromptEditor.past ed ++ [PromptEditor.current s])
                          [] true).
    { rewrite Hed', inputs_cons.
      simpl in Hall. apply andb_true_iff in Hall as [Hfirst Hburst].
      destruct first; try discriminate; cbn [PromptEditor.input];
        unfold PromptEditor.handlePromptChange, PromptEditor.widthInput,
               PromptEditor.heightInput, PromptEditor.handleDimensionInput,
               PromptEditor.debounce;
        rewrite Hidle; cbn [negb PromptEditor.saveToHistory PromptEditor.past
                            PromptEditor.future];
        apply (inputs_pending burst); try assumption; reflexivity. }
    split; [exact Hed|].
    rewrite Hed, undo_of_saved. f_equal.
    pose proof (inputs_keep_session (first :: burst) s ed) as Hkeep.
    rewrite <- Hs' in Hkeep. cbv zeta in Hkeep.
    destruct Hkeep as (H1 & H2 & H3 & H4 & H5 & H6 & H7).
    apply restore_current; assumption.
  - intros Hpending. rewrite Hed'. apply inputs_pending; assumption.
Qed.

Lemma burst_saves_one_entry_witness :
  let s := handleImageSelected initial photo in
  PromptEditor.inputs
    [PromptEditor.PromptChange "m"; PromptEditor.PromptChange "ma";
     PromptEditor.WidthChange (Some 800); PromptEditor.LocalUndo]
    (s, PromptEditor.initialEditor)
  = (s, PromptEditor.mkEditor
          [] [PromptEditor.Entry.mk "ma" 800 1024] true).
Proof.
  intros s.
  pose proof (burst_saves_one_entry
                (PromptEditor.PromptChange "m")
                [PromptEditor.PromptChange "ma"; PromptEditor.WidthChange (Some 800)]
                s PromptEditor.initialEditor eq_refl) as H.
  destruct (PromptEditor.inputs
              [PromptEditor.PromptChange "m"; PromptEditor.PromptChange "ma";
               PromptEditor.WidthChange (Some 800)]
              (s, PromptEditor.initialEditor)) as [s' ed'] eqn:Hrun.
  destruct H as [Hidle _]. destruct (Hidle eq_refl) as [_ Hundo].
  change (PromptEditor.inputs
            [PromptEditor.PromptChange "m"; PromptEditor.PromptChange "ma";
             PromptEditor.WidthChange (Some 800); PromptEditor.LocalUndo]
            (s, PromptEditor.initialEditor))
    with (PromptEditor.input PromptEditor.LocalUndo
            (PromptEditor.inputs
               [PromptEditor.PromptChange "m"; PromptEditor.PromptChange "ma";
                PromptEditor.WidthChange (Some 800)]
               (s, PromptEditor.initialEditor))).
  rewrite Hrun. simpl PromptEditor.input. rewrite Hundo.
  vm_compute in Hrun. injection Hrun as <- <-. reflexivity.
Defined.

Lemma parseDimension_positive (parsed : option Z) :
  1 <= PromptEditor.parseDimension parsed.
Proof.
  unfold PromptEditor.parseDimension. lia.
Qed.

Lemma debounce_sizes (s : App) (ed : PromptEditor.Editor) (s' : App) :
  editorSizesPositive (s, ed) ->
  1 <= width s' -> 1 <= height s' ->
  editorSizesPositive (s', PromptEditor.debounce s ed).
Proof.
  unfold editorSizesPositive. cbn [fst snd]. intros (Hw & Hh & Hall) Hw' Hh'.
  split; [exact Hw'|]. split; [exact Hh'|].
  unfold PromptEditor.debounce.
  destruct (PromptEditor.typingTimeoutRef ed);
    cbn [negb PromptEditor.saveToHistory PromptEditor.past PromptEditor.future];
    [exact Hall|].
  apply Forall_app in Hall as [Hp _]. rewrite app_nil_r.
  apply Forall_app. split; [exact Hp|].
  constructor; [simpl; lia | constructor].
Qed.

Lemma input_sizes (i : PromptEditor.Input) (w : App * PromptEditor.Editor) :
  roundsSize i = false ->
  editorSizesPositive w -> editorSizesPositive (PromptEditor.input i w).
Proof.
  destruct w as [s ed]. intros Hi Hpos. pose proof Hpos as (Hw & Hh & Hall).
  cbn [fst snd] in Hw, Hh, Hall.
  destruct i as [v|parsed|parsed|p|ratio| | | ]; cbn [PromptEditor.input].
  - apply debounce_sizes; assumption.
  - apply debounce_sizes; [assumption | apply parseDimension_positive | exact Hh].
  - apply debounce_sizes; [assumption | exact Hw | apply parseDimension_positive].
  - unfold PromptEditor.handleQuickAction, editorSizesPositive. cbn [fst snd].
    split; [exact Hw|]. split; [exact Hh|].
    cbn [PromptEditor.saveToHistory PromptEditor.past PromptEditor.future].
    apply Forall_app in Hall as [Hp _]. rewrite app_nil_r.
    apply Forall_app. split; [exact Hp|].
    constructor; [simpl; lia | constructor].
  - simpl in Hi. apply negb_false_iff in Hi.
    unfold PromptEditor.handleAspectRatioClick. rewrite Hi.
    unfold editorSizesPositive. cbn [fst snd].
    split; [simpl; lia|]. split; [simpl; lia|].
    cbn [PromptEditor.saveToHistory PromptEditor.past PromptEditor.future].
    apply Forall_app in Hall as [Hp _]. rewrite app_nil_r.
    apply Forall_app. split; [exact Hp|].
    constructor; [simpl; lia | constructor].
  - destruct ed as [pst fut typing]. cbn [PromptEditor.past PromptEditor.future] in Hall.
    destruct pst as [|e0 pst'] eqn:Hpst; [exact Hpos|].
    destruct (@exists_last _ (e0 :: pst') ltac:(discriminate))
      as (older & previous & Heq).
    rewrite Heq in *. rewrite undo_of_saved.
    apply Forall_app in Hall as [Hp Hf]. apply Forall_app in Hp as [Ho Hprev].
    inversion Hprev as [|? ? Hprev' _]; subst.
    unfold editorSizesPositive. cbn [fst snd PromptEditor.past PromptEditor.future].
    split; [simpl; lia|]. split; [simpl; lia|].
    apply Forall_app. split; [exact Ho|].
    constructor; [simpl; lia | exact Hf].
  - destruct ed as [pst fut typing]. cbn [PromptEditor.past PromptEditor.future] in Hall.
    destruct fut as [|next newer]; [exact Hpos|].
    rewrite redo_of_undone.
    apply Forall_app in Hall as [Hp Hf].
    inversion Hf as [|? ? Hnext Hnewer]; subst.
    unfold editorSizesPositive. cbn [fst snd PromptEditor.past PromptEditor.future].
    split; [simpl; lia|]. split; [simpl; lia|].
    apply Forall_app. split; [|exact Hnewer].
    apply Forall_app. split; [exact Hp|].
    constructor; [simpl; lia | constructor].
  - exact Hpos.
Qed.

(** X15. Whatever is typed in the size fields, the width and the height
    they set are at least 1 (exactly the number typed when it is at least
    1). Through any sequence of inputs of the editor other than clicks on
    a preset whose ratio is not 1 (typing, quick actions, the 1:1 preset,
    local undo and redo, the end of the timer), the target size and
    every size saved in the editor's history stay at least 1. *)
Theorem editor_keeps_sizes_positive
    (l : list PromptEditor.Input) (w : App * PromptEditor.Editor) :
  existsb roundsSize l = false ->
  editorSizesPositive w ->
  editorSizesPositive (PromptEditor.inputs l w) /\
  (forall parsed, 1 <= PromptEditor.parseDimension parsed) /\
  (forall n, 1 <= n -> PromptEditor.parseDimension (Some n) = n) /\
  (forall n, n <= 1 -> PromptEditor.parseDimension (Some n) = 1) /\
  PromptEditor.parseDimension None = 1.
Proof.
  intros Hl Hpos. split; [|split; [|split; [|split]]].
  - revert w Hl Hpos. induction l as [|i l IH]; intros w Hl Hpos; [exact Hpos|].
    simpl in Hl. apply orb_false_iff in Hl as [Hi Hl].
    rewrite inputs_cons. apply IH; [exact Hl|]. apply input_sizes; assumption.
  - apply parseDimension_positive.
  - intros n Hn. unfold PromptEditor.parseDimension.
    destruct (Z.eqb_spec n 0); lia.
  - intros n Hn. unfold PromptEditor.parseDimension.
    destruct (Z.eqb_spec n 0); lia.
  - reflexivity.
Qed.

Lemma editor_keeps_sizes_positive_witness :
  editorSizesPositive
    (PromptEditor.inputs
       [PromptEditor.WidthChange (Some 0); PromptEditor.TypingTimeout;
        PromptEditor.HeightChange None; PromptEditor.AspectRatioClick 1;
        PromptEditor.LocalUndo; PromptEditor.LocalUndo; PromptEditor.LocalRedo]
       (initial, PromptEditor.initialEditor)).
Proof.
  apply editor_keeps_sizes_positive; [reflexivity|].
  unfold editorSizesPositive. simpl. repeat split; try lia. constructor.
Defined.

(** ** The aspect-ratio presets of the editor *)

(** X22. A click on an aspect-ratio preset saves the prompt and the size
    to the editor's history at once, whether a typing timer is pending or
    not, and clears the future; a local undo right after the click gives
    back the session as it was. The click changes nothing but the target
    size, of which it keeps the long side: with the ratio 1 both sides
    become the long side, with a ratio above 1 the width is the long side
    and the height the rounded quotient, otherwise the height is the long
    side and the width the rounded product. On a 1920 x 1080 target the
    presets 1:1, 16:9, 9:16, 4:3 and 3:4 give 1920 x 1920, 1920 x 1080,
    1080 x 1920, 1920 x 1440 and 1440 x 1920. *)
Theorem aspect_click_keeps_long_side
    (ratio : float) (s s' : App) (ed ed' : PromptEditor.Editor) :
  PromptEditor.handleAspectRatioClick ratio s ed = Some (s', ed') ->
  let longSide := Z.max (width s) (height s) in
  ed' = PromptEditor.mkEditor (PromptEditor.past ed ++ [PromptEditor.current s])
                              [] (PromptEditor.typingTimeoutRef ed) /\
  PromptEditor.handleLocalUndo s' ed'
  = (s, PromptEditor.mkEditor (PromptEditor.past ed) [PromptEditor.current s']
                              (PromptEditor.typingTimeoutRef ed)) /\
  s' = (s |> setWidth (width s') |> setHeight (height s')) /\
  ((ratio =? 1)%float = true -> width s' = longSide /\ height s' = longSide) /\
  ((ratio =? 1)%float = false -> (1 <? ratio)%float = true ->
   width s' = longSide /\
   JS.round (JS.number longSide / ratio) = Some (height s')) /\
  ((ratio =? 1)%float = false -> (1 <? ratio)%float = false ->
   height s' = longSide /\
   JS.round (JS.number longSide * ratio) = Some (width s')) /\
  map (fun preset =>
         option_map (fun w => (width (fst w), height (fst w)))
                    (PromptEditor.handleAspectRatioClick
                       (snd preset) (sized 1920 1080) PromptEditor.initialEditor))
      PromptEditor.ASPECT_RATIOS
  = [Some (1920, 1920); Some (1920, 1080); Some (1080, 1920);
     Some (1920, 1440); Some (1440, 1920)].
Proof.
  intros Hclick longSide.
  assert (Hundo : forall s1,
             history s1 = history s -> historyIndex s1 = historyIndex s ->
             appState s1 = appState s -> originalImage s1 = originalImage s ->
             showCropper s1 = showCropper s ->
             showResetConfirmation s1 = showResetConfirmation s ->
             error s1 = error s ->
             PromptEditor.handleLocalUndo s1 (PromptEditor.saveToHistory s ed)
             = (s, PromptEditor.mkEditor (PromptEditor.past ed)
                     [PromptEditor.current s1] (PromptEditor.typingTimeoutRef ed))).
  { intros s1 H1 H2 H3 H4 H5 H6 H7. unfold PromptEditor.saveToHistory.
    rewrite undo_of_saved. f_equal. apply restore_current; assumption. }
  assert (Hpresets :
            map (fun preset =>
                   option_map (fun w => (width (fst w), height (fst w)))
                     (PromptEditor.handleAspectRatioClick
                        (snd preset) (sized 1920 1080) PromptEditor.initialEditor))
                PromptEditor.ASPECT_RATIOS
            = [Some (1920, 1920); Some (1920, 1080); Some (1080, 1920);
               Some (1920, 1440); Some (1440, 1920)])
    by (vm_compute; reflexivity).
  unfold PromptEditor.handleAspectRatioClick in Hclick. fold longSide in Hclick.
  destruct (ratio =? 1)%float eqn:E1.
  - injection Hclick as <- <-.
    split; [reflexivity|]. split; [apply Hundo; reflexivity|].
    split; [destruct s; reflexivity|].
    split; [intros _; split; reflexivity|].
    split; [discriminate|]. split; [discriminate | exact Hpresets].
  - destruct (1 <? ratio)%float eqn:E2.
    + destruct (JS.round (JS.number longSide / ratio)) as [rounded|] eqn:Er;
        [|discriminate].
      injection Hclick as <- <-.
      split; [reflexivity|]. split; [apply Hundo; reflexivity|].
      split; [destruct s; reflexivity|].
      split; [discriminate|].
      split; [intros _ _; split; reflexivity|].
      split; [discriminate | exact Hpresets].
    + destruct (JS.round (JS.number longSide * ratio)) as [rounded|] eqn:Er;
        [|discriminate].
      injection Hclick as <- <-.
      split; [reflexivity|]. split; [apply Hundo; reflexivity|].
      split; [destruct s; reflexivity|].
      split; [discriminate|].
      split; [discriminate|].
      split; [intros _ _; split; reflexivity | exact Hpresets].
Qed.

(** The 16:9 preset on the initial 1024 x 1024 target, with a typing timer
    pending. *)
Lemma aspect_click_keeps_long_side_witness :
  exists s',
    PromptEditor.input (PromptEditor.AspectRatioClick (16 / 9))
      (initial, PromptEditor.mkEditor [] [] true)
    = (s', PromptEditor.mkEditor [PromptEditor.Entry.mk "" 1024 1024] [] true) /\
    width s' = 1024 /\ height s' = 576 /\
    PromptEditor.handleLocalUndo
      s' (PromptEditor.mkEditor [PromptEditor.Entry.mk "" 1024 1024] [] true)
    = (initial, PromptEditor.mkEditor [] [PromptEditor.Entry.mk "" 1024 576] true).
Proof.
  pose (s' := initial |> setWidth 1024 |> setHeight 576).
  pose (ed' := PromptEditor.mkEditor [PromptEditor.Entry.mk "" 1024 1024] [] true).
  assert (Hclick : PromptEditor.handleAspectRatioClick
                     (16 / 9) initial (PromptEditor.mkEditor [] [] true)
                   = Some (s', ed')) by (vm_compute; reflexivity).
  destruct (aspect_click_keeps_long_side _ _ _ _ _ Hclick)
    as (_ & Hundo & _ & _ & Hwide & _).
  exists s'. split; [cbn [PromptEditor.input]; rewrite Hclick; reflexivity|].
  split; [reflexivity|]. split; [reflexivity|]. exact Hundo.
Defined.

(** ** Submitting the prompt *)

Lemma trimStart_blank (s : string) :
  blank s = true -> PromptEditor.trimStart s = "".
Proof.
  induction s as [|c s IH]; simpl; [reflexivity|].
  intros H. apply andb_true_iff in H as [Hc Hs]. rewrite Hc. apply IH, Hs.
Qed.

Lemma trimEnd_kept (c : ascii) (s : string) :
  PromptEditor.whiteSpace c = false ->
  PromptEditor.trimEnd (String c s) <> "".
Proof.
  intros Hc. simpl. destruct (PromptEditor.trimEnd s); [rewrite Hc|]; discriminate.
Qed.

Lemma trim_empty (s : string) :
  PromptEditor.trim s = "" <-> blank s = true.
Proof.
  unfold PromptEditor.trim. induction s as [|c s IH].
  - simpl. tauto.
  - cbn [PromptEditor.trimStart blank].
    destruct (PromptEditor.whiteSpace c) eqn:Hc; cbn [andb].
    + exact IH.
    + split; [|discriminate]. intros H. exfalso.
      apply (trimEnd_kept c s Hc), H.
Qed.

(** X16. A prompt with nothing but white space is not submitted: the
    session stays as it is and no request is made. Any other prompt is
    submitted as it stands, untrimmed, and it is the text sent to the
    gateway when there is a source image. *)
Theorem blank_prompt_not_submitted
    (resizeImage : string -> Z -> Z -> option string) (s : App) :
  (blank (prompt s) = true ->
   PromptEditor.handleSubmit resizeImage s = Done s /\
   sent (PromptEditor.handleSubmit resizeImage s) = None) /\
  (blank (prompt s) = false ->
   PromptEditor.handleSubmit resizeImage s
   = handleGenerate resizeImage s (prompt s) /\
   (originalImage s <> None ->
    exists req,
      sent (PromptEditor.handleSubmit resizeImage s) = Some req /\
      Request.text req = prompt s)).
Proof.
  unfold PromptEditor.handleSubmit, JS.truthy. split; intros Hb.
  - apply trim_empty in Hb. rewrite Hb. split; reflexivity.
  - destruct (String.eqb_spec (PromptEditor.trim (prompt s)) "") as [He|He].
    + apply trim_empty in He. congruence.
    + cbn [negb]. split; [reflexivity|]. intros Ho.
      unfold handleGenerate. destruct (originalImage s); [|congruence].
      eexists. split; reflexivity.
Qed.

(** * The result viewer *)

(** ** Rotation clicks *)

Lemma handleRotate_mod (direction : ResultViewer.Direction) (r : Z) :
  0 <= r < 360 ->
  ResultViewer.handleRotate direction r
  = (r + 90 * netClicks [direction]) mod 360.
Proof.
  intros Hr. destruct direction; unfold ResultViewer.handleRotate, JS.rem; simpl.
  - apply Z.rem_mod_nonneg; lia.
  - rewrite Z.rem_mod_nonneg by lia.
    replace (r - 90 + 360) with (r + -90 + 1 * 360) by lia.
    apply Z.mod_add. lia.
Qed.

Lemma rotate_mod (clicks : list ResultViewer.Direction) (r : Z) :
  0 <= r < 360 ->
  ResultViewer.rotate clicks r = (r + 90 * netClicks clicks) mod 360.
Proof.
  revert r. induction clicks as [|d clicks IH]; intros r Hr.
  - simpl. rewrite Z.add_0_r. symmetry. apply Z.mod_small. exact Hr.
  - unfold ResultViewer.rotate in *. simpl fold_left.
    rewrite IH by (rewrite handleRotate_mod by exact Hr;
                   apply Z.mod_pos_bound; lia).
    rewrite handleRotate_mod by exact Hr.
    rewrite Zplus_mod_idemp_l. f_equal.
    unfold netClicks. destruct d; cbn [fold_right]; lia.
Qed.

(** X17. The rotation after any sequence of clicks is 90 degrees times
    the number of clockwise clicks minus the number of counter-clockwise
    ones, modulo 360. So a click in one direction is undone by a click in
    the other, and four clicks in the same direction change nothing. *)
Theorem rotation_counts_net_clicks (clicks : list ResultViewer.Direction) :
  let r := ResultViewer.rotate clicks 0 in
  r = (90 * netClicks clicks) mod 360 /\
  ResultViewer.handleRotate ResultViewer.ccw
    (ResultViewer.handleRotate ResultViewer.cw r) = r /\
  ResultViewer.handleRotate ResultViewer.cw
    (ResultViewer.handleRotate ResultViewer.ccw r) = r /\
  ResultViewer.rotate
    [ResultViewer.cw; ResultViewer.cw; ResultViewer.cw; ResultViewer.cw] r = r /\
  ResultViewer.rotate
    [ResultViewer.ccw; ResultViewer.ccw; ResultViewer.ccw; ResultViewer.ccw] r = r.
Proof.
  intros r. split.
  - unfold r. rewrite rotate_mod by lia. reflexivity.
  - assert (Hr : r = 0 \/ r = 90 \/ r = 180 \/ r = 270)
      by (apply rotate_quarter; tauto).
    clearbody r.
    destruct Hr as [-> | [-> | [-> | ->]]]; repeat split; reflexivity.
Qed.

(** ** Active adjustments *)

(** X18. The adjustments are reported active exactly when some filter
    differs from its neutral value or the rotation is not 0. They are not
    active after a reset of the filters, which leaves the panel open, nor
    after a change of the viewed image, which also closes the panel and
    the comparison slider. *)
Theorem active_adjustments (v : ResultViewer.Viewer) :
  (ResultViewer.hasActiveFilters v = false <->
   ResultViewer.filters v = ResultViewer.neutralFilters /\
   ResultViewer.rotation v = 0) /\
  ResultViewer.hasActiveFilters (ResultViewer.handleResetFilters v) = false /\
  ResultViewer.hasActiveFilters (ResultViewer.imageChanged v) = false /\
  ResultViewer.showFilters (ResultViewer.handleResetFilters v)
  = ResultViewer.showFilters v /\
  ResultViewer.isSliderMode (ResultViewer.handleResetFilters v)
  = ResultViewer.isSliderMode v /\
  ResultViewer.sliderPosition (ResultViewer.handleResetFilters v)
  = ResultViewer.sliderPosition v /\
  ResultViewer.imageChanged v = ResultViewer.initialViewer.
Proof.
  split; [|repeat split].
  destruct v as [sf sm sp [b c g se sa t] r].
  unfold ResultViewer.hasActiveFilters, ResultViewer.neutralFilters. simpl.
  split.
  - intros H. repeat (apply orb_false_iff in H as [H ?]).
    repeat match goal with
           | H : negb (_ =? _) = false |- _ =>
               apply negb_false_iff, Z.eqb_eq in H
           end.
    subst. split; reflexivity.
  - intros [[= -> -> -> -> -> ->] ->]. reflexivity.
Qed.

(** ** The temperature overlay *)

(** X20. With a temperature between -100 and 100 the image is drawn
    first, with the transform and the filter reset after it, and an
    overlay is painted over the whole canvas only when the temperature is
    not 0: orange for a positive temperature, blue for a negative one,
    with an opacity of the magnitude of the temperature over 200, hence
    above 0 and at most one half, the same for opposite temperatures; the
    blending mode is set back to [source-over] after it. *)
Theorem temperature_overlay
    (v : ResultViewer.Viewer) (img_width img_height canvasWidth canvasHeight : Z) :
  let t := ResultViewer.temperature (ResultViewer.filters v) in
  -100 <= t <= 100 ->
  let calls :=
    ResultViewer.applyCanvasTransformations v img_width img_height
                                            canvasWidth canvasHeight in
  let image := drawsImage v img_width img_height canvasWidth canvasHeight in
  (t = 0 -> calls = image) /\
  (t <> 0 ->
   exists red green blue alpha,
     calls = (image ++ paintsOverlay red green blue alpha canvasWidth canvasHeight)%list /\
     (alpha == inject_Z (Z.abs t) / 200)%Q /\
     (0 < alpha)%Q /\ (alpha <= 1 # 2)%Q /\
     (0 < t -> (red, green, blue) = (255, 147, 41)) /\
     (t < 0 -> (red, green, blue) = (0, 160, 255))).
Proof.
  intros t Ht calls image. unfold calls, image, drawsImage,
    ResultViewer.applyCanvasTransformations. fold t.
  split.
  - intros ->. reflexivity.
  - intros Hne. destruct (Z.eqb_spec t 0) as [|_]; [contradiction|]. cbn [negb].
    assert (Hhalf : forall a : Q, (a / 100 * 0.5 == a / 200)%Q)
      by (intros a; field).
    assert (Hbound : forall n : Z, 0 < n <= 100 ->
              (0 < inject_Z n / 200)%Q /\ (inject_Z n / 200 <= 1 # 2)%Q).
    { intros n Hn.
      assert (H0 : (0 < inject_Z n)%Q)
        by (change 0%Q with (inject_Z 0); rewrite <- Zlt_Qlt; lia).
      assert (H1 : (inject_Z n <= 100)%Q)
        by (change 100%Q with (inject_Z 100); rewrite <- Zle_Qle; lia).
      split.
      - apply Qlt_shift_div_l; lra.
      - apply Qle_shift_div_r; lra. }
    destruct (Z.gtb_spec t 0) as [Hpos|Hneg].
    + exists 255, 147, 41. eexists. split; [reflexivity|].
      rewrite Hhalf, (Z.abs_eq t) by lia.
      destruct (Hbound t ltac:(lia)) as [Hlow Hhigh].
      split; [reflexivity|]. split; [exact Hlow|]. split; [exact Hhigh|].
      split; [reflexivity|]. intros. exfalso. lia.
    + exists 0, 160, 255. eexists. split; [reflexivity|].
      rewrite Hhalf.
      destruct (Hbound (Z.abs t) ltac:(lia)) as [Hlow Hhigh].
      split; [reflexivity|]. split; [exact Hlow|]. split; [exact Hhigh|].
      split; [|reflexivity]. intros. exfalso. lia.
Qed.

Lemma temperature_overlay_witness :
  let v := ResultViewer.mkViewer true false (Some 50%Q)
             (ResultViewer.handleFilterChange ResultViewer.Temperature (-40)
                ResultViewer.neutralFilters) 0 in
  exists alpha,
    ResultViewer.applyCanvasTransformations v 800 600 800 600
    = (drawsImage v 800 600 800 600 ++ paintsOverlay 0 160 255 alpha 800 600)%list /\
    (alpha == 1 # 5)%Q.
Proof.
  intros v.
  destruct (temperature_overlay v 800 600 800 600) as [_ Hoverlay].
  - simpl. lia.
  - destruct Hoverlay as (red & green & blue & alpha & Hcalls & Halpha & _ & _ & _ & Hcool).
    + simpl. discriminate.
    + assert (Hcolour : (red, green, blue) = (0, 160, 255))
        by (apply Hcool; simpl; lia).
      injection Hcolour as -> -> ->.
      exists alpha. split; [exact Hcalls|]. rewrite Halpha. reflexivity.
Defined.

(** ** Baking and exporting *)

(** X21. An export draws on a canvas of the same size as a bake of the
    same adjustments, and makes the same calls; for JPEG it first fills
    the whole canvas with white and encodes with the chosen quality over
    100, which for qualities from 1 to 100 is above 0 and at most 1, and
    for PNG it draws on the bare canvas. Neither does anything without a
    generated image. *)
Theorem export_draws_what_bake_draws
    (v : ResultViewer.Viewer) (exportQuality : Z) (generatedImage : option string)
    (img_width img_height : Z) (now : string) :
  (JS.truthy generatedImage = false ->
   ResultViewer.handleApplyFilters v generatedImage img_width img_height = None /\
   forall exportFormat,
     ResultViewer.handleDownload v exportFormat exportQuality generatedImage
                                 img_width img_height now = None) /\
  (JS.truthy generatedImage = true ->
   exists size calls asPng asJpeg,
     size = ResultViewer.canvasSize (ResultViewer.rotation v) img_width img_height /\
     ResultViewer.handleApplyFilters v generatedImage img_width img_height
     = Some (size, calls) /\
     ResultViewer.handleDownload v ResultViewer.png exportQuality generatedImage
                                 img_width img_height now = Some asPng /\
     ResultViewer.handleDownload v ResultViewer.jpeg exportQuality generatedImage
                                 img_width img_height now = Some asJpeg /\
     ResultViewer.canvas asPng = size /\ ResultViewer.canvas asJpeg = size /\
     ResultViewer.calls asPng = calls /\
     ResultViewer.calls asJpeg
     = (ResultViewer.SetFillStyle (ResultViewer.Hex "#FFFFFF")
          :: ResultViewer.FillRect 0 0 (fst size) (snd size) :: calls) /\
     ResultViewer.encoding asPng = "image/png" /\
     ResultViewer.encoding asJpeg = "image/jpeg" /\
     ResultViewer.quality asPng = 1%Q /\
     (1 <= exportQuality <= 100 ->
      (0 < ResultViewer.quality asJpeg)%Q /\ (ResultViewer.quality asJpeg <= 1)%Q) /\
     ResultViewer.download asPng = "lumina-forge-edit-" ++ now ++ ".png" /\
     ResultViewer.download asJpeg = "lumina-forge-edit-" ++ now ++ ".jpeg").
Proof.
  unfold ResultViewer.handleApplyFilters, ResultViewer.handleDownload.
  split; intros Hg; rewrite Hg; cbn [negb].
  - split; [reflexivity|]. intros exportFormat. reflexivity.
  - do 4 eexists. repeat (split; [reflexivity|]).
    split; [|split; reflexivity].
    intros Hq. cbn [ResultViewer.quality].
    assert (Hinj : (1 <= inject_Z exportQuality)%Q /\ (inject_Z exportQuality <= 100)%Q).
    { split.
      - change 1%Q with (inject_Z 1). rewrite <- Zle_Qle. lia.
      - change 100%Q with (inject_Z 100). rewrite <- Zle_Qle. lia. }
    split.
    + apply Qlt_shift_div_l; lra.
    + apply Qle_shift_div_r; lra.
Qed.
